(** * Chain Hockey (mobile): match controller, entities and collision set-up

    A shallow embedding of the Phaser/Matter game under
    [chainhockey-mobile/game]: the configuration table, the bodies the
    entity constructors hand to the rigid-body adapter, the chain
    construction, and the match state machine of [GameScene].

    Conventions.
    - JavaScript numbers that hold coordinates are idealised as rationals
      ([Q]); scores, the countdown and the goal delay are integers ([Z]).
    - The Matter world is an explicit store: a list of bodies addressed by
      their index (the handle an entity keeps in [this.body]) and the list
      of constraints added to it.
    - Rendering ([draw], graphics objects, colours) is left out; the texts
      set on the two UI labels and the callbacks handed to the scheduler
      are fields of the scene record.
    - The physics engine behind [scene.matter] is not part of the game's
      sources; the few rules of it that the properties need are modelled
      and marked as such. *)

From Stdlib Require Import ZArith QArith Qminmax Lia Lqa List String Bool.
From Stdlib Require Import DecimalString.
From stdpp Require Import base list strings gmap.
Import ListNotations.

Local Open Scope string_scope.
Local Open Scope Z_scope.

(** ** Configuration ([config.js]) *)

Module GameConfig.
Definition GAME_WIDTH : Q := 1200.
Definition GAME_HEIGHT : Q := 700.

Definition GRAVITY : Q := 0.

Module STRIKER.
Definition RADIUS : Q := 20.
Definition MASS : Q := 5.
End STRIKER.

Module HAMMER.
Definition RADIUS : Q := 35.
Definition MASS : Q := 10.
End HAMMER.

Module PUCK.
Definition RADIUS : Q := 15.
Definition MASS : Q := 1.
End PUCK.

Module CHAIN.
Definition SEGMENTS : nat := 8.
Definition SEGMENT_LENGTH : Q := 20.
Definition STIFFNESS : Q := 0.7.
Definition DAMPING : Q := 0.05.
End CHAIN.

Module GOAL.
Definition WIDTH : Q := 20.
Definition HEIGHT : Q := 200.
End GOAL.

Definition GAME_DURATION_SECONDS : Z := 300.
Definition MAX_GOALS : Z := 10.
Definition GOAL_DELAY_FRAMES : Z := 60.

Definition PLAYER1_SPAWN_X : Q := 900.
Definition PLAYER2_SPAWN_X : Q := 300.
Definition PLAYER_SPAWN_Y : Q := 350.
Definition CENTER_LINE_X : Q := 600.

Module CATEGORY.
Definition PUCK : Z := 0x0001.
Definition STRIKER : Z := 0x0002.
Definition HAMMER : Z := 0x0004.
Definition WALL : Z := 0x0008.
Definition GOAL : Z := 0x0010.
Definition CHAIN : Z := 0x0020.
End CATEGORY.
End GameConfig.

(** ** Vectors, bodies and the Matter world *)

Module Vector.
Record t : Type := mk { x : Q; y : Q }.
Definition zero : t := mk 0 0.
End Vector.

Record CollisionFilter : Type := mkFilter {
  category : Z;
  mask : Z;
  group : Z
}.

(** Modelled from the spec: the filter the adapter gives a body for every
    field its options leave out (the walls give a category only): the
    first category, every category in the mask, no group. *)
Definition defaultFilter : CollisionFilter :=
  {| category := 0x0001; mask := 0xFFFFFFFF; group := 0 |}.

Inductive Shape : Type :=
| Circle (radius : Q)
| Rectangle (width height : Q).

(** The fields of a Matter body that the game sets or reads.  Material
    coefficients (friction, restitution, air friction) are only consumed
    inside the engine and are not part of the model. *)
Record Body : Type := mkBody {
  label : string;
  shape : Shape;
  position : Vector.t;
  velocity : Vector.t;
  angularVelocity : Q;
  mass : Q;
  isStatic : bool;
  isSensor : bool;
  collisionFilter : CollisionFilter
}.

(** A distance constraint between two bodies, given by their handles;
    [None] stands for JavaScript's [undefined] (an out-of-range array
    read passed as an endpoint). *)
Module Constraint.
Record t : Type := mk {
  bodyA : option nat;
  bodyB : option nat;
  length : Q;
  stiffness : Q;
  damping : Q
}.
End Constraint.

Record World : Type := mkWorld {
  bodies : list Body;
  constraints : list Constraint.t
}.

Definition emptyWorld : World := mkWorld [] [].

Module Matter.
(** Modelled from the spec: the adapter's body factory
    ([scene.matter.add.circle] / [add.rectangle], "create circular /
    rectangular bodies"), which is the engine's.  The new body is appended
    to the world and its handle returned. *)
Definition add (b : Body) (w : World) : nat * World :=
  (length (bodies w), mkWorld (bodies w ++ [b])%list (constraints w)).

Definition circle (px py r : Q) (lbl : string) (m : Q)
    (static sensor : bool) (f : CollisionFilter) : Body :=
  mkBody lbl (Circle r) (Vector.mk px py) Vector.zero 0 m static sensor f.

Definition rectangle (px py wd ht : Q) (lbl : string)
    (static sensor : bool) (f : CollisionFilter) : Body :=
  mkBody lbl (Rectangle wd ht) (Vector.mk px py) Vector.zero 0 1
         static sensor f.

(** Modelled from the spec: "create length-constraint links between two
    bodies",
    [scene.matter.add.constraint(bodyA, bodyB, length, stiffness, {damping})]. *)
Definition constraint (a b : option nat) (len stiff damp : Q) (w : World)
    : Constraint.t * World :=
  let c := Constraint.mk a b len stiff damp in
  (c, mkWorld (bodies w) (constraints w ++ [c])%list).

Definition updateBody (h : nat) (f : Body -> Body) (w : World) : World :=
  match bodies w !! h with
  | Some b => mkWorld (<[h := f b]> (bodies w)) (constraints w)
  | None => w
  end.

(** Modelled from the spec: "set position and velocity directly",
    [scene.matter.body.setPosition / setVelocity / setAngularVelocity];
    each writes the one field it names. *)
Definition setPosition (h : nat) (p : Vector.t) : World -> World :=
  updateBody h (fun b =>
    mkBody (label b) (shape b) p (velocity b) (angularVelocity b)
           (mass b) (isStatic b) (isSensor b) (collisionFilter b)).

Definition setVelocity (h : nat) (v : Vector.t) : World -> World :=
  updateBody h (fun b =>
    mkBody (label b) (shape b) (position b) v (angularVelocity b)
           (mass b) (isStatic b) (isSensor b) (collisionFilter b)).

Definition setAngularVelocity (h : nat) (a : Q) : World -> World :=
  updateBody h (fun b =>
    mkBody (label b) (shape b) (position b) (velocity b) a
           (mass b) (isStatic b) (isSensor b) (collisionFilter b)).

Definition positionOf (h : nat) (w : World) : option Vector.t :=
  position <$> bodies w !! h.

(** Modelled from the spec: the adapter's static bodies, here those of
    [scene.matter.world.setBounds(x, y, width, height)] as the engine
    documents it: the rectangle is walled in with four static rectangles
    (left, right, top, bottom) of thickness 64, made without a label or a
    filter of their own. *)
Definition boundsThickness : Q := 64.

Definition boundsWall (px py wd ht : Q) (w : World) : World :=
  snd (add (rectangle (px + wd / 2) (py + ht / 2) wd ht "Rectangle Body"
              true false defaultFilter) w).

Definition setBounds (px py wd ht : Q) (w : World) : World :=
  let th := boundsThickness in
  let w := boundsWall (px - th) (py - th) th (ht + th * 2) w in
  let w := boundsWall (px + wd) (py - th) th (ht + th * 2) w in
  let w := boundsWall px (py - th) wd th w in
  boundsWall px (py + ht) wd th w.
End Matter.

(** Modelled from the spec: [Phaser.Math.Clamp(value, min, max)], the
    framework's clamp ("clamps (x, y) to the striker's movement band"),
    which is [Math.max(min, Math.min(max, value))]. *)
Definition Clamp (value min max : Q) : Q := Qmax min (Qmin max value).

(** Decimal rendering of the numbers spliced into template strings. *)
Definition showZ (z : Z) : string := NilZero.string_of_int (Z.to_int z).
Definition showNat (n : nat) : string := NilZero.string_of_uint (Nat.to_uint n).

(** ** Striker *)

Module Striker.
Record t : Type := mk {
  playerNum : Z;
  startX : Q;
  startY : Q;
  minX : Q;
  maxX : Q;
  minY : Q;
  maxY : Q;
  body : nat
}.

Definition filter : CollisionFilter :=
  {| category := GameConfig.CATEGORY.STRIKER;
     mask := Z.lor GameConfig.CATEGORY.PUCK GameConfig.CATEGORY.WALL;
     group := 0 |}.

Definition new (px py : Q) (playerNum : Z) (w : World) : t * World :=
  let '(lo, hi) :=
    if (playerNum =? 1)%Z
    then ((GameConfig.CENTER_LINE_X + GameConfig.STRIKER.RADIUS)%Q,
          (GameConfig.GAME_WIDTH - GameConfig.STRIKER.RADIUS)%Q)
    else (GameConfig.STRIKER.RADIUS,
          (GameConfig.CENTER_LINE_X - GameConfig.STRIKER.RADIUS)%Q) in
  let '(h, w') :=
    Matter.add (Matter.circle px py GameConfig.STRIKER.RADIUS
                  ("striker_p" ++ showZ playerNum)
                  GameConfig.STRIKER.MASS false false filter) w in
  (mk playerNum px py lo hi
      GameConfig.STRIKER.RADIUS
      (GameConfig.GAME_HEIGHT - GameConfig.STRIKER.RADIUS)%Q h, w').

(** The position the body is given by [setPosition(x, y)]. *)
Definition constrained (s : t) (px py : Q) : Vector.t :=
  Vector.mk (Clamp px (minX s) (maxX s)) (Clamp py (minY s) (maxY s)).

Definition setPosition (s : t) (px py : Q) (w : World) : World :=
  Matter.setPosition (body s) (constrained s px py) w.

Definition getPosition (s : t) (w : World) : option Vector.t :=
  Matter.positionOf (body s) w.
End Striker.

(** ** Hammer *)

Definition Qltb (a b : Q) : bool := negb (Qle_bool b a).

Module Hammer.
Record t : Type := mk {
  playerNum : Z;
  minX : Q;
  maxX : Q;
  minY : Q;
  maxY : Q;
  body : nat
}.

Definition filter : CollisionFilter :=
  {| category := GameConfig.CATEGORY.HAMMER;
     mask := Z.lor GameConfig.CATEGORY.PUCK GameConfig.CATEGORY.WALL;
     group := 0 |}.

Definition new (px py : Q) (playerNum : Z) (w : World) : t * World :=
  let '(lo, hi) :=
    if (playerNum =? 1)%Z
    then ((GameConfig.CENTER_LINE_X + GameConfig.HAMMER.RADIUS)%Q,
          (GameConfig.GAME_WIDTH - GameConfig.HAMMER.RADIUS)%Q)
    else (GameConfig.HAMMER.RADIUS,
          (GameConfig.CENTER_LINE_X - GameConfig.HAMMER.RADIUS)%Q) in
  let '(h, w') :=
    Matter.add (Matter.circle px py GameConfig.HAMMER.RADIUS
                  ("hammer_p" ++ showZ playerNum)
                  GameConfig.HAMMER.MASS false false filter) w in
  (mk playerNum lo hi
      GameConfig.HAMMER.RADIUS
      (GameConfig.GAME_HEIGHT - GameConfig.HAMMER.RADIUS)%Q h, w').

(** [update]: push the body back inside the band when it has left it. *)
Definition update (m : t) (w : World) : World :=
  match Matter.positionOf (body m) w with
  | None => w
  | Some pos =>
      let '(newX, nx) :=
        if Qltb (Vector.x pos) (minX m) then (minX m, true)
        else if Qltb (maxX m) (Vector.x pos) then (maxX m, true)
        else (Vector.x pos, false) in
      let '(newY, ny) :=
        if Qltb (Vector.y pos) (minY m) then (minY m, true)
        else if Qltb (maxY m) (Vector.y pos) then (maxY m, true)
        else (Vector.y pos, false) in
      if nx || ny
      then Matter.setPosition (body m) (Vector.mk newX newY) w
      else w
  end.

Definition getPosition (m : t) (w : World) : option Vector.t :=
  Matter.positionOf (body m) w.
End Hammer.

(** ** Puck *)

Module Puck.
Record t : Type := mk {
  startX : Q;
  startY : Q;
  body : nat
}.

Definition filter : CollisionFilter :=
  {| category := GameConfig.CATEGORY.PUCK;
     mask := Z.lor (Z.lor GameConfig.CATEGORY.STRIKER
                           GameConfig.CATEGORY.HAMMER)
                   GameConfig.CATEGORY.WALL;
     group := 0 |}.

Definition new (px py : Q) (w : World) : t * World :=
  let '(h, w') :=
    Matter.add (Matter.circle px py GameConfig.PUCK.RADIUS "puck"
                  GameConfig.PUCK.MASS false false filter) w in
  (mk px py h, w').

Definition reset (p : t) (w : World) : World :=
  let w1 := Matter.setPosition (body p) (Vector.mk (startX p) (startY p)) w in
  let w2 := Matter.setVelocity (body p) (Vector.mk 0 0) w1 in
  Matter.setAngularVelocity (body p) 0 w2.

Definition getPosition (p : t) (w : World) : option Vector.t :=
  Matter.positionOf (body p) w.
End Puck.

(** ** Goal *)

Module Goal.
Record t : Type := mk {
  side : string;
  x : Q;
  y : Q;
  width : Q;
  height : Q;
  body : nat
}.

Definition filter : CollisionFilter :=
  {| category := GameConfig.CATEGORY.GOAL;
     mask := GameConfig.CATEGORY.PUCK;
     group := 0 |}.

Definition new (side : string) (w : World) : t * World :=
  let gx :=
    if String.eqb side "left"
    then (GameConfig.GOAL.WIDTH / 2)%Q
    else (GameConfig.GAME_WIDTH - GameConfig.GOAL.WIDTH / 2)%Q in
  let gy := (GameConfig.GAME_HEIGHT / 2)%Q in
  let '(h, w') :=
    Matter.add (Matter.rectangle gx gy GameConfig.GOAL.WIDTH
                  GameConfig.GOAL.HEIGHT ("goal_" ++ side)
                  true true filter) w in
  (mk side gx gy GameConfig.GOAL.WIDTH GameConfig.GOAL.HEIGHT h, w').
End Goal.

(** ** ChainSystem *)

Module ChainSystem.
Record t : Type := mk {
  striker : Striker.t;
  hammer : Hammer.t;
  playerNum : Z;
  segments : list nat;
  constraints : list Constraint.t
}.

Definition filter : CollisionFilter :=
  {| category := GameConfig.CATEGORY.CHAIN; mask := 0; group := 0 |}.

(** Body of the first loop of [createChain]: segment [i]. *)
Definition segmentBody (playerNum : Z) (strikerPos : Vector.t) (dx dy : Q)
    (i : nat) : Body :=
  let px := (Vector.x strikerPos + dx * inject_Z (Z.of_nat (i + 1)))%Q in
  let py := (Vector.y strikerPos + dy * inject_Z (Z.of_nat (i + 1)))%Q in
  Matter.circle px py 3
    ("chain_segment_p" ++ showZ playerNum ++ "_" ++ showNat i)
    0.1 false false filter.

Definition addSegment (playerNum : Z) (strikerPos : Vector.t) (dx dy : Q)
    (acc : list nat * World) (i : nat) : list nat * World :=
  let '(h, w') :=
    Matter.add (segmentBody playerNum strikerPos dx dy i) (snd acc) in
  ((fst acc ++ [h])%list, w').

Definition link (a b : option nat) (acc : list Constraint.t * World)
    : list Constraint.t * World :=
  let '(c, w') :=
    Matter.constraint a b GameConfig.CHAIN.SEGMENT_LENGTH
      GameConfig.CHAIN.STIFFNESS GameConfig.CHAIN.DAMPING (snd acc) in
  ((fst acc ++ [c])%list, w').

(** [createChain], with the configured segment count as a parameter.
    Reading the position of an endpoint whose body is not in the world
    has no JavaScript counterpart (the entity holds the body itself);
    the model answers [None] there. *)
Definition createChain (numSegments : nat) (playerNum : Z)
    (s : Striker.t) (m : Hammer.t) (w : World)
    : option (list nat * list Constraint.t * World) :=
  match Striker.getPosition s w, Hammer.getPosition m w with
  | Some strikerPos, Some hammerPos =>
      let dx := ((Vector.x hammerPos - Vector.x strikerPos)
                 / inject_Z (Z.of_nat (numSegments + 1)))%Q in
      let dy := ((Vector.y hammerPos - Vector.y strikerPos)
                 / inject_Z (Z.of_nat (numSegments + 1)))%Q in
      let '(segs, w1) :=
        fold_left (addSegment playerNum strikerPos dx dy)
                  (seq 0 numSegments) ([], w) in
      let acc1 := link (Some (Striker.body s)) (segs !! 0%nat) ([], w1) in
      let acc2 :=
        fold_left (fun acc i => link (segs !! i) (segs !! (i + 1)%nat) acc)
                  (seq 0 (length segs - 1)) acc1 in
      let '(cs, w3) :=
        link (segs !! (length segs - 1)%nat) (Some (Hammer.body m)) acc2 in
      Some (segs, cs, w3)
  | _, _ => None
  end.

Definition new (s : Striker.t) (m : Hammer.t) (playerNum : Z) (w : World)
    : option (t * World) :=
  match createChain GameConfig.CHAIN.SEGMENTS playerNum s m w with
  | Some (segs, cs, w') => Some (mk s m playerNum segs cs, w')
  | None => None
  end.
End ChainSystem.

(** ** GameScene: the match controller *)

(** The callback [endGame] hands to [this.time.delayedCall]. *)
Inductive Callback : Type :=
| StartGameOverScene.

(** A touch sample as [TouchInputManager.getPlayer1Input] returns it. *)
Module Input.
Record t : Type := mk { x : Q; y : Q; active : bool }.
Definition none : t := mk 0 0 false.
End Input.

Module GameScene.
(** The game objects made by [create]; the scene never re-assigns them. *)
Record Objects : Type := mkObjects {
  goalLeft : Goal.t;
  goalRight : Goal.t;
  puck : Puck.t;
  striker1 : Striker.t;
  hammer1 : Hammer.t;
  striker2 : Striker.t;
  hammer2 : Hammer.t;
  chain1 : ChainSystem.t;
  chain2 : ChainSystem.t
}.

Record t : Type := mk {
  player1Score : Z;
  player2Score : Z;
  gameTime : Z;
  gameOver : bool;
  goalDelay : Z;
  (** [null], or the number passed to [endGame] (0 is a tie). *)
  winner : option Z;
  (** [this.matter.world] *)
  world : World;
  (** [Some b]: the looping one-second timer event, [b] telling whether
      it is still scheduled ([remove] clears it). *)
  timerEvent : option bool;
  scoreText : string;
  timerText : string;
  (** Callbacks given to [this.time.delayedCall], with their delay (ms). *)
  delayedCalls : list (Z * Callback);
  (** Instrumentation: how many times [puck.reset()] has been called. *)
  puckResets : nat;
  objects : Objects
}.

Definition set_player1Score (v : Z) (s : t) : t :=
  let '(mk a b c d e f g h i j k l m) := s in mk v b c d e f g h i j k l m.
Definition set_player2Score (v : Z) (s : t) : t :=
  let '(mk a b c d e f g h i j k l m) := s in mk a v c d e f g h i j k l m.
Definition set_gameTime (v : Z) (s : t) : t :=
  let '(mk a b c d e f g h i j k l m) := s in mk a b v d e f g h i j k l m.
Definition set_gameOver (v : bool) (s : t) : t :=
  let '(mk a b c d e f g h i j k l m) := s in mk a b c v e f g h i j k l m.
Definition set_goalDelay (v : Z) (s : t) : t :=
  let '(mk a b c d e f g h i j k l m) := s in mk a b c d v f g h i j k l m.
Definition set_winner (v : option Z) (s : t) : t :=
  let '(mk a b c d e f g h i j k l m) := s in mk a b c d e v g h i j k l m.
Definition set_world (v : World) (s : t) : t :=
  let '(mk a b c d e f g h i j k l m) := s in mk a b c d e f v h i j k l m.
Definition set_timerEvent (v : option bool) (s : t) : t :=
  let '(mk a b c d e f g h i j k l m) := s in mk a b c d e f g v i j k l m.
Definition set_scoreText (v : string) (s : t) : t :=
  let '(mk a b c d e f g h i j k l m) := s in mk a b c d e f g h v j k l m.
Definition set_timerText (v : string) (s : t) : t :=
  let '(mk a b c d e f g h i j k l m) := s in mk a b c d e f g h i v k l m.
Definition set_delayedCalls (v : list (Z * Callback)) (s : t) : t :=
  let '(mk a b c d e f g h i j k l m) := s in mk a b c d e f g h i j v l m.
Definition set_puckResets (v : nat) (s : t) : t :=
  let '(mk a b c d e f g h i j k l m) := s in mk a b c d e f g h i j k v m.

Definition wallFilter : CollisionFilter :=
  {| category := GameConfig.CATEGORY.WALL;
     mask := mask defaultFilter;
     group := group defaultFilter |}.

Definition wall (px py wd ht : Q) (lbl : string) (w : World) : World :=
  snd (Matter.add (Matter.rectangle px py wd ht lbl true false wallFilter) w).

Definition createWalls (w : World) : World :=
  let W := GameConfig.GAME_WIDTH in
  let H := GameConfig.GAME_HEIGHT in
  let w := wall (W / 2) (-10) W 20 "wall_top" w in
  let w := wall (W / 2) (H + 10) W 20 "wall_bottom" w in
  let goalY := (H / 2)%Q in
  let goalHalfHeight := (GameConfig.GOAL.HEIGHT / 2)%Q in
  let w := wall (-10) ((goalY - goalHalfHeight) / 2) 20
                (goalY - goalHalfHeight) "wall_left_top" w in
  let w := wall (-10)
                (goalY + goalHalfHeight + (H - goalY - goalHalfHeight) / 2)
                20 (H - goalY - goalHalfHeight) "wall_left_bottom" w in
  let w := wall (W + 10) ((goalY - goalHalfHeight) / 2) 20
                (goalY - goalHalfHeight) "wall_right_top" w in
  wall (W + 10)
       (goalY + goalHalfHeight + (H - goalY - goalHalfHeight) / 2)
       20 (H - goalY - goalHalfHeight) "wall_right_bottom" w.

Definition setupPhysics (w : World) : World :=
  Matter.setBounds 0 0 GameConfig.GAME_WIDTH GameConfig.GAME_HEIGHT w.

(** [create]: world bounds, walls, goals, puck, players, chains, then the
    timer. *)
Definition create : option t :=
  let w := setupPhysics emptyWorld in
  let w := createWalls w in
  let '(gl, w) := Goal.new "left" w in
  let '(gr, w) := Goal.new "right" w in
  let '(pk, w) :=
    Puck.new (GameConfig.GAME_WIDTH / 2) (GameConfig.GAME_HEIGHT / 2) w in
  let '(s1, w) :=
    Striker.new GameConfig.PLAYER1_SPAWN_X GameConfig.PLAYER_SPAWN_Y 1 w in
  let '(h1, w) :=
    Hammer.new (GameConfig.PLAYER1_SPAWN_X + 100)
               GameConfig.PLAYER_SPAWN_Y 1 w in
  let '(s2, w) :=
    Striker.new GameConfig.PLAYER2_SPAWN_X GameConfig.PLAYER_SPAWN_Y 2 w in
  let '(h2, w) :=
    Hammer.new (GameConfig.PLAYER2_SPAWN_X - 100)
               GameConfig.PLAYER_SPAWN_Y 2 w in
  match ChainSystem.new s1 h1 1 w with
  | None => None
  | Some (c1, w) =>
      match ChainSystem.new s2 h2 2 w with
      | None => None
      | Some (c2, w) =>
          Some (mk 0 0 GameConfig.GAME_DURATION_SECONDS false 0 None w
                   (Some true) "0  -  0" "05:00" [] 0%nat
                   (mkObjects gl gr pk s1 h1 s2 h2 c1 c2))
      end
  end.

Definition updateScoreDisplay (s : t) : t :=
  set_scoreText
    (showZ (player1Score s) ++ "  -  " ++ showZ (player2Score s)) s.

Definition endGame (winner : Z) (s : t) : t :=
  let s := set_gameOver true s in
  let s := set_winner (Some winner) s in
  let s := match timerEvent s with
           | Some _ => set_timerEvent (Some false) s
           | None => s
           end in
  set_delayedCalls (delayedCalls s ++ [(1000, StartGameOverScene)])%list s.

Definition checkWinCondition (s : t) : t :=
  if gameOver s then s
  else if player1Score s >=? GameConfig.MAX_GOALS then endGame 1 s
  else if player2Score s >=? GameConfig.MAX_GOALS then endGame 2 s
  else if gameTime s <=? 0 then
    if player1Score s >? player2Score s then endGame 1 s
    else if player2Score s >? player1Score s then endGame 2 s
    else endGame 0 s
  else s.

Definition onGoalScored (side : string) (s : t) : t :=
  if (goalDelay s >? 0) || gameOver s then s
  else
    let s := if String.eqb side "left"
             then set_player2Score (player2Score s + 1) s
             else set_player1Score (player1Score s + 1) s in
    let s := updateScoreDisplay s in
    let s := set_puckResets (S (puckResets s))
               (set_world (Puck.reset (puck (objects s)) (world s)) s) in
    let s := set_goalDelay GameConfig.GOAL_DELAY_FRAMES s in
    checkWinCondition s.

(** [n.toString().padStart(2, '0')] *)
Definition pad2 (z : Z) : string :=
  let str := showZ z in
  match String.length str with
  | 0%nat => "00"
  | 1%nat => "0" ++ str
  | _ => str
  end.

Definition updateTimer (s : t) : t :=
  if gameOver s then s
  else
    let s := set_gameTime (gameTime s - 1) s in
    let s := if gameTime s <=? 0
             then checkWinCondition (set_gameTime 0 s)
             else s in
    let minutes := gameTime s / 60 in
    let seconds := Z.rem (gameTime s) 60 in
    set_timerText (pad2 minutes ++ ":" ++ pad2 seconds) s.

Definition update (p1Input p2Input : Input.t) (s : t) : t :=
  if gameOver s then s
  else
    let s := if goalDelay s >? 0
             then set_goalDelay (goalDelay s - 1) s else s in
    let s := if Input.active p1Input
             then set_world (Striker.setPosition (striker1 (objects s))
                               (Input.x p1Input) (Input.y p1Input)
                               (world s)) s
             else s in
    let s := if Input.active p2Input
             then set_world (Striker.setPosition (striker2 (objects s))
                               (Input.x p2Input) (Input.y p2Input)
                               (world s)) s
             else s in
    let s := set_world (Hammer.update (hammer1 (objects s)) (world s)) s in
    set_world (Hammer.update (hammer2 (objects s)) (world s)) s.

(** What the scheduled callback passes to the game-over scene when it
    fires: winner and final scores. *)
Definition runCallback (c : Callback) (s : t) : option Z * Z * Z :=
  match c with
  | StartGameOverScene => (winner s, player1Score s, player2Score s)
  end.

(** [setupCollisions]: the handler run on a ['collisionstart'] event,
    over the labels of each pair's two bodies.  It is written over the
    callback so that the calls it makes can be counted. *)
Section Dispatch.
Context {S : Type} (onGoal : string -> S -> S).

Definition dispatchPair (st : S) (pair : Body * Body) : S :=
  let '(bodyA, bodyB) := pair in
  let st :=
    if (String.eqb (label bodyA) "puck" && String.eqb (label bodyB) "goal_left")
       || (String.eqb (label bodyB) "puck" && String.eqb (label bodyA) "goal_left")
    then onGoal "left" st else st in
  if (String.eqb (label bodyA) "puck" && String.eqb (label bodyB) "goal_right")
     || (String.eqb (label bodyB) "puck" && String.eqb (label bodyA) "goal_right")
  then onGoal "right" st else st.

Definition dispatch (pairs : list (Body * Body)) (st : S) : S :=
  fold_left dispatchPair pairs st.
End Dispatch.

Definition collisionstart (pairs : list (Body * Body)) (s : t) : t :=
  dispatch onGoalScored pairs s.

(** The sides for which a list of pairs makes the handler call
    [onGoalScored], in call order. *)
Definition goalCalls (pairs : list (Body * Body)) : list string :=
  dispatch (fun side calls => (calls ++ [side])%list) pairs [].
End GameScene.

(** ** The rigid-body adapter: filtering and constraint resolution

    The engine behind [scene.matter] is not part of the game's sources.
    The rules below are the ones the game's set-up relies on. *)

Module Detector.
(** Modelled from the spec: the adapter's "collision category+mask
    filtering" (the engine's [Detector.canCollide], absent from the
    sources).  Two bodies of one non-zero group follow the group's sign;
    otherwise each body's mask must contain the other's category. *)
Definition canCollide (filterA filterB : CollisionFilter) : bool :=
  if (group filterA =? group filterB) && negb (group filterA =? 0)
  then group filterA >? 0
  else negb (Z.land (mask filterA) (category filterB) =? 0)
       && negb (Z.land (mask filterB) (category filterA) =? 0).

(** Modelled from the spec: which pairs the adapter examines at all: one
    of the two bodies can move ("static: immovable") and the filters admit
    the pair. *)
Definition candidate (a b : Body) : bool :=
  negb (isStatic a && isStatic b)
  && canCollide (collisionFilter a) (collisionFilter b).

Fixpoint pairsOf (bs : list Body) : list (Body * Body) :=
  match bs with
  | [] => []
  | a :: rest => (map (fun b => (a, b)) rest ++ pairsOf rest)%list
  end.

(** Modelled from the spec: the "event stream of contact-begin pairs per
    step".  [touching] is the geometric overlap test, left open. *)
Definition collisions (touching : Body -> Body -> bool) (w : World)
    : list (Body * Body) :=
  List.filter (fun p => candidate (fst p) (snd p) && touching (fst p) (snd p))
         (pairsOf (bodies w)).

(** Modelled from the spec: a contact is resolved mechanically unless one
    side is a sensor ("non-colliding trigger zones ... never a source of
    mechanical force"). *)
Definition mechanical (a b : Body) : bool :=
  candidate a b && negb (isSensor a || isSensor b).
End Detector.

Module Engine.
(** Exact rational square root, when there is one. *)
Definition Qsqrt (q : Q) : option Q :=
  let q := Qred q in
  let n := (Qnum q * Z.pos (Qden q))%Z in
  let r := Z.sqrt n in
  if (0 <=? n) && (r * r =? n) then Some (Qred (r # Qden q)) else None.

Definition magnitude (v : Vector.t) : option Q :=
  Qsqrt (Vector.x v * Vector.x v + Vector.y v * Vector.y v).

(** Modelled from the spec: a static body has "infinite mass". *)
Definition inverseMass (b : Body) : Q :=
  if isStatic b then 0 else (1 / mass b)%Q.

Definition minLength : Q := 0.000001.

(** Modelled from the spec: one constraint "resolved as a positional
    correction proportional to (currentLength - restLength) x stiffness"
    (section 4.1), shared between the two endpoints by inverse mass; a
    static endpoint is not moved.  A constraint with a missing endpoint
    is skipped; [None] is answered where the current length is not
    rational.  Coordinates are kept in lowest terms ([Qred]). *)
Definition solve (c : Constraint.t) (w : World) : option World :=
  match Constraint.bodyA c, Constraint.bodyB c with
  | Some a, Some b =>
      match bodies w !! a, bodies w !! b with
      | Some A, Some B =>
          let delta :=
            Vector.mk (Vector.x (position A) - Vector.x (position B))
                      (Vector.y (position A) - Vector.y (position B)) in
          match magnitude delta with
          | None => None
          | Some len =>
              let currentLength :=
                if Qltb len minLength then minLength else len in
              let difference :=
                ((currentLength - Constraint.length c) / currentLength)%Q in
              let k := (difference * Constraint.stiffness c)%Q in
              let massTotal := (inverseMass A + inverseMass B)%Q in
              let shareA := (inverseMass A / massTotal)%Q in
              let shareB := (inverseMass B / massTotal)%Q in
              let w1 :=
                if isStatic A then w
                else Matter.setPosition a
                       (Vector.mk
                          (Qred (Vector.x (position A) - Vector.x delta * k * shareA))
                          (Qred (Vector.y (position A) - Vector.y delta * k * shareA)))
                       w in
              let w2 :=
                if isStatic B then w1
                else Matter.setPosition b
                       (Vector.mk
                          (Qred (Vector.x (position B) + Vector.x delta * k * shareB))
                          (Qred (Vector.y (position B) + Vector.y delta * k * shareB)))
                       w1 in
              Some w2
          end
      | _, _ => Some w
      end
  | _, _ => Some w
  end.

(** Modelled from the spec: one relaxation pass over the world's
    constraints, in the order they were added (the engine repeats such
    passes within a step). *)
Definition solveAll (w : World) : option World :=
  fold_left (fun acc c => match acc with
                          | Some w' => solve c w'
                          | None => None
                          end)
            (constraints w) (Some w).
End Engine.

(** One rendering frame: the adapter's physics step (a parameter), then
    the scene's [update] with the two input samples. *)
Definition frame (physics : World -> option World)
    (p1Input p2Input : Input.t) (s : GameScene.t) : option GameScene.t :=
  match physics (GameScene.world s) with
  | Some w' => Some (GameScene.update p1Input p2Input (GameScene.set_world w' s))
  | None => None
  end.

(** Position of a player's striker in a scene. *)
Definition strikerPosition (player : Z) (s : GameScene.t) : option Vector.t :=
  Striker.getPosition
    (if player =? 1 then GameScene.striker1 (GameScene.objects s)
     else GameScene.striker2 (GameScene.objects s))
    (GameScene.world s).

(** ** Runs of the controller

    What the host feeds the scene: the adapter's ['collisionstart'] event,
    the one-second timer callback, and the per-frame [update].  A direct
    [onGoalScored] call is kept as an event of its own. *)
Inductive Event : Type :=
| CollisionStart (pairs : list (Body * Body))
| GoalScored (side : string)
| TimerTick
| Update (p1Input p2Input : Input.t).

Definition handle (s : GameScene.t) (e : Event) : GameScene.t :=
  match e with
  | CollisionStart pairs => GameScene.collisionstart pairs s
  | GoalScored side => GameScene.onGoalScored side s
  | TimerTick => GameScene.updateTimer s
  | Update p1Input p2Input => GameScene.update p1Input p2Input s
  end.

Definition run (es : list Event) (s : GameScene.t) : GameScene.t :=
  fold_left handle es s.

(** Number of frames ([update] calls) in a run. *)
Definition frames (es : list Event) : Z :=
  Z.of_nat (length (List.filter (fun e => match e with
                                      | Update _ _ => true
                                      | _ => false
                                      end) es)).

Definition totalScore (s : GameScene.t) : Z :=
  GameScene.player1Score s + GameScene.player2Score s.

(** The scene on which [onGoalScored] evaluates the win condition once
    its guard has let the call through: the statements of its body up to,
    and without, the final [checkWinCondition]. *)
Definition scored (side : string) (s : GameScene.t) : GameScene.t :=
  let s := if String.eqb side "left"
           then GameScene.set_player2Score (GameScene.player2Score s + 1) s
           else GameScene.set_player1Score (GameScene.player1Score s + 1) s in
  let s := GameScene.updateScoreDisplay s in
  let s := GameScene.set_puckResets (S (GameScene.puckResets s))
             (GameScene.set_world
                (Puck.reset (GameScene.puck (GameScene.objects s))
                            (GameScene.world s)) s) in
  GameScene.set_goalDelay GameConfig.GOAL_DELAY_FRAMES s.

(** What every handler keeps of a scene reached from [s0]: the game
    objects, the number of bodies in the world, and one puck reset per
    point scored. *)
Definition reached_from (s0 s : GameScene.t) : Prop :=
  GameScene.objects s = GameScene.objects s0
  /\ length (bodies (GameScene.world s)) = length (bodies (GameScene.world s0))
  /\ Z.of_nat (GameScene.puckResets s) - Z.of_nat (GameScene.puckResets s0)
     = totalScore s - totalScore s0.

(** The constraint the middle loop of [createChain] makes at index [i]. *)
Definition linkOf (segs : list nat) (i : nat) : Constraint.t :=
  Constraint.mk (segs !! i) (segs !! (i + 1)%nat)
    GameConfig.CHAIN.SEGMENT_LENGTH GameConfig.CHAIN.STIFFNESS
    GameConfig.CHAIN.DAMPING.

(** A chain constraint between two present bodies. *)
Definition chainLink (a b : nat) : Constraint.t :=
  Constraint.mk (Some a) (Some b)
    GameConfig.CHAIN.SEGMENT_LENGTH GameConfig.CHAIN.STIFFNESS
    GameConfig.CHAIN.DAMPING.

(** Point at fraction [(i + 1) / (n + 1)] of the way from [a] to [b]. *)
Definition along (a b : Q) (i n : nat) : Q :=
  (a + (b - a) * inject_Z (Z.of_nat (i + 1)) / inject_Z (Z.of_nat (n + 1)))%Q.

(** What a body is created with and keeps: everything but its position
    and velocities. *)
Definition bodyKind (b : Body)
    : string * Shape * Q * bool * bool * CollisionFilter :=
  (label b, shape b, mass b, isStatic b, isSensor b, collisionFilter b).

(** The side a contact pair scores for: the puck with the left or the
    right goal sensor, in either order. *)
Definition goalSide (pair : Body * Body) : option string :=
  let '(a, b) := pair in
  if (String.eqb (label a) "puck" && String.eqb (label b) "goal_left")
     || (String.eqb (label b) "puck" && String.eqb (label a) "goal_left")
  then Some "left"
  else if (String.eqb (label a) "puck" && String.eqb (label b) "goal_right")
          || (String.eqb (label b) "puck" && String.eqb (label a) "goal_right")
  then Some "right"
  else None.

(** The entity classes, told apart by the label a body is created with;
    the world-bounds walls carry the engine's label for a rectangle. *)
Inductive EntityClass : Type :=
| PuckClass | StrikerClass | HammerClass | WallClass | GoalClass
| ChainLinkClass | OtherClass.

Definition classOf (b : Body) : EntityClass :=
  let l := label b in
  if String.eqb l "puck" then PuckClass
  else if String.prefix "striker_p" l then StrikerClass
  else if String.prefix "hammer_p" l then HammerClass
  else if String.prefix "wall_" l || String.eqb l "Rectangle Body"
  then WallClass
  else if String.prefix "goal_" l then GoalClass
  else if String.prefix "chain_segment_p" l then ChainLinkClass
  else OtherClass.

(** The pairs of classes that the implicit claim lists as colliding:
    puck-striker, puck-hammer, puck-wall, striker-wall and hammer-wall, in
    either order. *)
Definition listedPair (c1 c2 : EntityClass) : bool :=
  match c1, c2 with
  | PuckClass, StrikerClass | StrikerClass, PuckClass
  | PuckClass, HammerClass | HammerClass, PuckClass
  | PuckClass, WallClass | WallClass, PuckClass
  | StrikerClass, WallClass | WallClass, StrikerClass
  | HammerClass, WallClass | WallClass, HammerClass => true
  | _, _ => false
  end.

(** The puck against a world-bounds wall (in either order). *)
Definition puckAtBounds (a b : Body) : bool :=
  (String.eqb (label a) "puck" && String.eqb (label b) "Rectangle Body")
  || (String.eqb (label b) "puck" && String.eqb (label a) "Rectangle Body").

(** The puck's filter with the goal category added to its mask. *)
Definition puckFilterWithGoal : CollisionFilter :=
  {| category := category Puck.filter;
     mask := Z.lor (mask Puck.filter) GameConfig.CATEGORY.GOAL;
     group := group Puck.filter |}.

(** ** GameOverScene *)

Module GameOverScene.
Record t : Type := mk {
  winner : option Z;
  player1Score : Z;
  player2Score : Z
}.

(** [init(data)], with the data object [endGame]'s callback passes. *)
Definition init (data : option Z * Z * Z) : t :=
  let '(w, p1, p2) := data in mk w p1 p2.

(** The winner announcement chosen in [create]. *)
Definition winnerText (s : t) : string :=
  match winner s with
  | Some w =>
      if w =? 1 then "Player 1 Wins!"
      else if w =? 2 then "Player 2 Wins!"
      else "Tie Game!"
  | None => "Tie Game!"
  end.

Definition finalScoreText (s : t) : string :=
  showZ (player1Score s) ++ "  -  " ++ showZ (player2Score s).
End GameOverScene.

(** The game-over scene as the scheduled callback starts it from a scene
    of the game. *)
Definition startGameOverScene (s : GameScene.t) : GameOverScene.t :=
  GameOverScene.init (GameScene.runCallback StartGameOverScene s).

(** ** TouchInputManager *)

Module Pointer.
Record t : Type := mk { id : Z; x : Q; y : Q; isDown : bool }.
End Pointer.

Module TouchInputManager.
Record t : Type := mk {
  (** [this.activePointers]: a [Map] from ['player1'] / ['player2'] to a
      pointer id. *)
  activePointers : gmap string Z;
  leftHalfEnd : Q;
  rightHalfStart : Q
}.

Definition new : t :=
  mk ∅ GameConfig.CENTER_LINE_X GameConfig.CENTER_LINE_X.

(** The camera's [getWorldPoint] is the framework's; it is a parameter
    [cam] of the methods that call it. *)
Definition onPointerDown (cam : Q -> Q -> Vector.t) (pointer : Pointer.t)
    (m : t) : t :=
  let worldPoint := cam (Pointer.x pointer) (Pointer.y pointer) in
  if Qltb (Vector.x worldPoint) (leftHalfEnd m)
  then mk (<["player2" := Pointer.id pointer]> (activePointers m))
          (leftHalfEnd m) (rightHalfStart m)
  else if Qle_bool (rightHalfStart m) (Vector.x worldPoint)
  then mk (<["player1" := Pointer.id pointer]> (activePointers m))
          (leftHalfEnd m) (rightHalfStart m)
  else m.

Definition onPointerUp (pointer : Pointer.t) (m : t) : t :=
  let m :=
    match activePointers m !! "player1" with
    | Some pid =>
        if pid =? Pointer.id pointer
        then mk (delete "player1" (activePointers m))
                (leftHalfEnd m) (rightHalfStart m)
        else m
    | None => m
    end in
  match activePointers m !! "player2" with
  | Some pid =>
      if pid =? Pointer.id pointer
      then mk (delete "player2" (activePointers m))
              (leftHalfEnd m) (rightHalfStart m)
      else m
  | None => m
  end.


End TouchInputManager.

(** The pointer events the manager subscribes to in [setupInput]
    (['pointermove'] has an empty handler). *)
Inductive TouchEvent : Type :=
| PointerDown (pointer : Pointer.t)
| PointerUp (pointer : Pointer.t).

Definition touchHandle (cam : Q -> Q -> Vector.t) (m : TouchInputManager.t)
    (e : TouchEvent) : TouchInputManager.t :=
  match e with
  | PointerDown pointer => TouchInputManager.onPointerDown cam pointer m
  | PointerUp pointer => TouchInputManager.onPointerUp pointer m
  end.

Definition touchRun (cam : Q -> Q -> Vector.t) (es : list TouchEvent)
    (m : TouchInputManager.t) : TouchInputManager.t :=
  fold_left (touchHandle cam) es m.


(** ** Invariant of the match state *)

Definition timeText (gameTime : Z) : string :=
  GameScene.pad2 (gameTime / 60) ++ ":" ++ GameScene.pad2 (Z.rem gameTime 60).

(** What holds of the match state in every scene a run reaches from the
    created one. *)
Definition wellFormed (s : GameScene.t) : Prop :=
  0 <= GameScene.player1Score s <= GameConfig.MAX_GOALS
  /\ 0 <= GameScene.player2Score s <= GameConfig.MAX_GOALS
  /\ 0 <= GameScene.gameTime s <= GameConfig.GAME_DURATION_SECONDS
  /\ 0 <= GameScene.goalDelay s <= GameConfig.GOAL_DELAY_FRAMES
  /\ GameScene.scoreText s
     = showZ (GameScene.player1Score s) ++ "  -  "
       ++ showZ (GameScene.player2Score s)
  /\ GameScene.timerText s = timeText (GameScene.gameTime s)
  /\ (if GameScene.gameOver s
      then GameScene.timerEvent s = Some false
           /\ GameScene.delayedCalls s = [(1000, StartGameOverScene)]
           /\ exists w, GameScene.winner s = Some w
                /\ ((w = 1 /\ GameScene.player2Score s < GameScene.player1Score s)
                    \/ (w = 2
                        /\ GameScene.player1Score s < GameScene.player2Score s)
                    \/ (w = 0
                        /\ GameScene.player1Score s = GameScene.player2Score s
                        /\ GameScene.gameTime s = 0))
      else GameScene.player1Score s < GameConfig.MAX_GOALS
           /\ GameScene.player2Score s < GameConfig.MAX_GOALS
           /\ 0 < GameScene.gameTime s
           /\ GameScene.winner s = None
           /\ GameScene.delayedCalls s = []
           /\ GameScene.timerEvent s = Some true).

(** The frames of a run in which both samples come with the events. *)
Definition updates (inputs : list (Input.t * Input.t)) : list Event :=
  map (fun i => Update (fst i) (snd i)) inputs.

(** Whether a position lies in a hammer's band. *)
Definition inHammerBand (m : Hammer.t) (p : Vector.t) : Prop :=
  (Hammer.minX m <= Vector.x p <= Hammer.maxX m)%Q
  /\ (Hammer.minY m <= Vector.y p <= Hammer.maxY m)%Q.

(** * Properties *)

(** ** The body store *)

Lemma positionOf_setPosition (h : nat) (p : Vector.t) (w : World) :
  (h < length (bodies w))%nat ->
  Matter.positionOf h (Matter.setPosition h p w) = Some p.
Proof.
  intros Hlt. unfold Matter.positionOf, Matter.setPosition, Matter.updateBody.
  destruct (lookup_lt_is_Some_2 (bodies w) h Hlt) as [b Hb].
  rewrite Hb. simpl. rewrite list_lookup_insert_eq by exact Hlt. reflexivity.
Qed.

Lemma positionOf_setPosition_ne (h h' : nat) (p : Vector.t) (w : World) :
  h <> h' ->
  Matter.positionOf h' (Matter.setPosition h p w) = Matter.positionOf h' w.
Proof.
  intros Hne. unfold Matter.positionOf, Matter.setPosition, Matter.updateBody.
  destruct (bodies w !! h) as [b|] eqn:Hb; [|reflexivity].
  simpl. rewrite list_lookup_insert_ne by exact Hne. reflexivity.
Qed.

Lemma length_updateBody (h : nat) (f : Body -> Body) (w : World) :
  length (bodies (Matter.updateBody h f w)) = length (bodies w).
Proof.
  unfold Matter.updateBody. destruct (bodies w !! h); [|reflexivity].
  simpl. apply length_insert.
Qed.

(** ** Clamping *)

Lemma Clamp_spec (v lo hi : Q) :
  (lo <= hi)%Q ->
  (lo <= Clamp v lo hi <= hi)%Q
  /\ ((v < lo)%Q -> (Clamp v lo hi == lo)%Q)
  /\ ((hi < v)%Q -> (Clamp v lo hi == hi)%Q)
  /\ ((lo <= v <= hi)%Q -> (Clamp v lo hi == v)%Q).
Proof.
  intros Hle. unfold Clamp.
  destruct (Q.max_spec lo (Qmin hi v)) as [[H1 H2]|[H1 H2]];
    destruct (Q.min_spec hi v) as [[H3 H4]|[H3 H4]];
    rewrite H2; try rewrite H4; try rewrite H4 in H1;
    repeat split; intros; lra.
Qed.

Lemma striker_new_band (sx sy : Q) (player : Z) (w0 : World) :
  let s := fst (Striker.new sx sy player w0) in
  let R := GameConfig.STRIKER.RADIUS in
  Striker.minY s = R
  /\ Striker.maxY s = (GameConfig.GAME_HEIGHT - R)%Q
  /\ (player = 1 ->
      Striker.minX s = (GameConfig.CENTER_LINE_X + R)%Q
      /\ Striker.maxX s = (GameConfig.GAME_WIDTH - R)%Q)
  /\ (player <> 1 ->
      Striker.minX s = R
      /\ Striker.maxX s = (GameConfig.CENTER_LINE_X - R)%Q)
  /\ Striker.body s = length (bodies w0).
Proof.
  unfold Striker.new. destruct (Z.eqb_spec player 1) as [->|Hne]; simpl;
    repeat split; intros; congruence.
Qed.

Lemma striker_band_ordered (sx sy : Q) (player : Z) (w0 : World) :
  let s := fst (Striker.new sx sy player w0) in
  (Striker.minX s <= Striker.maxX s)%Q /\ (Striker.minY s <= Striker.maxY s)%Q.
Proof.
  unfold Striker.new. destruct (player =? 1); simpl; split; discriminate.
Qed.

(** C7.  Whatever sample [(x, y)] is passed to [Striker.setPosition], the
    striker's body ends inside its band: player 1 in
    [CENTER_LINE_X + RADIUS, GAME_WIDTH - RADIUS], player 2 in
    [RADIUS, CENTER_LINE_X - RADIUS], both in [RADIUS, GAME_HEIGHT - RADIUS]
    vertically; a coordinate outside the band is moved to the nearest band
    boundary and one inside is kept. *)
Theorem striker_setPosition_within_band
    (player : Z) (sx sy : Q) (w0 w : World) (x y : Q) :
  let s := fst (Striker.new sx sy player w0) in
  let R := GameConfig.STRIKER.RADIUS in
  (Striker.body s < length (bodies w))%nat ->
  exists p : Vector.t,
    Striker.getPosition s (Striker.setPosition s x y w) = Some p
    /\ (player = 1 ->
        (GameConfig.CENTER_LINE_X + R <= Vector.x p <= GameConfig.GAME_WIDTH - R)%Q)
    /\ (player = 2 ->
        (R <= Vector.x p <= GameConfig.CENTER_LINE_X - R)%Q)
    /\ (R <= Vector.y p <= GameConfig.GAME_HEIGHT - R)%Q
    /\ (Striker.minX s <= Vector.x p <= Striker.maxX s)%Q
    /\ ((x < Striker.minX s)%Q -> (Vector.x p == Striker.minX s)%Q)
    /\ ((Striker.maxX s < x)%Q -> (Vector.x p == Striker.maxX s)%Q)
    /\ ((Striker.minX s <= x <= Striker.maxX s)%Q -> (Vector.x p == x)%Q)
    /\ ((y < R)%Q -> (Vector.y p == R)%Q)
    /\ ((GameConfig.GAME_HEIGHT - R < y)%Q ->
        (Vector.y p == GameConfig.GAME_HEIGHT - R)%Q)
    /\ ((R <= y <= GameConfig.GAME_HEIGHT - R)%Q -> (Vector.y p == y)%Q).
Proof.
  intros s R Hlive.
  exists (Striker.constrained s x y). split.
  { unfold Striker.getPosition, Striker.setPosition.
    apply positionOf_setPosition, Hlive. }
  destruct (striker_band_ordered sx sy player w0) as [HX HY].
  destruct (striker_new_band sx sy player w0) as (HminY & HmaxY & H1 & H2 & _).
  fold s in HX, HY, HminY, HmaxY, H1, H2. fold R in HminY, HmaxY, H1, H2.
  destruct (Clamp_spec x _ _ HX) as (Hx1 & Hx2 & Hx3 & Hx4).
  destruct (Clamp_spec y _ _ HY) as (Hy1 & Hy2 & Hy3 & Hy4).
  rewrite HminY, HmaxY in Hy1, Hy2, Hy3, Hy4.
  simpl Vector.x. simpl Vector.y. rewrite HminY, HmaxY.
  split; [|split; [|split; [|split]]]; try tauto.
  - intros ->. destruct (H1 eq_refl) as [<- <-]. exact Hx1.
  - intros ->. assert (Hne : 2 <> 1) by lia.
    destruct (H2 Hne) as [<- <-]. exact Hx1.
Qed.

Lemma striker_setPosition_within_band_witness :
  exists p : Vector.t,
    Striker.getPosition (fst (Striker.new 900 350 1 emptyWorld))
      (Striker.setPosition (fst (Striker.new 900 350 1 emptyWorld)) 5000 (-3)
         (snd (Striker.new 900 350 1 emptyWorld))) = Some p
    /\ (Vector.x p == 1180)%Q /\ (Vector.y p == 20)%Q.
Proof.
  destruct (striker_setPosition_within_band 1 900 350 emptyWorld
              (snd (Striker.new 900 350 1 emptyWorld)) 5000 (-3))
    as (p & Hp & _ & _ & _ & _ & _ & Hx & _ & Hy & _).
  - simpl. lia.
  - exists p. split; [exact Hp|]. split.
    + apply Hx. reflexivity.
    + apply Hy. reflexivity.
Defined.

(** ** The match state machine *)

Section Controller.
Import GameScene.

Ltac zbool :=
  repeat match goal with
    | |- context [?a >=? ?b] => destruct (Z.geb_spec a b)
    | |- context [?a >? ?b] => destruct (Z.gtb_spec a b)
    | |- context [?a <=? ?b] => destruct (Z.leb_spec a b)
    end.

Lemma endGame_eq (w : Z) (s : t) :
  endGame w s =
  mk (player1Score s) (player2Score s) (gameTime s) true (goalDelay s)
     (Some w) (world s)
     (match timerEvent s with Some _ => Some false | None => None end)
     (scoreText s) (timerText s)
     (delayedCalls s ++ [(1000, StartGameOverScene)])%list
     (puckResets s) (objects s).
Proof.
  destruct s as [p1 p2 gt go gd wn wd te st tt dc pr ob].
  destruct te; reflexivity.
Qed.

(** [checkWinCondition] either leaves the scene alone or ends a game
    that was still running. *)
Lemma checkWinCondition_cases (s : t) :
  checkWinCondition s = s
  \/ (gameOver s = false /\ exists w, checkWinCondition s = endGame w s).
Proof.
  unfold checkWinCondition. destruct (gameOver s); [now left|].
  repeat match goal with
    | |- context [if ?c then _ else _] => destruct c
    end; eauto.
Qed.

Lemma checkWinCondition_frame (s : t) :
  let s' := checkWinCondition s in
  player1Score s' = player1Score s /\ player2Score s' = player2Score s
  /\ gameTime s' = gameTime s /\ goalDelay s' = goalDelay s
  /\ world s' = world s /\ puckResets s' = puckResets s
  /\ objects s' = objects s /\ scoreText s' = scoreText s.
Proof.
  cbv zeta.
  destruct (checkWinCondition_cases s) as [->|[_ [w ->]]]; [tauto|].
  rewrite endGame_eq. simpl. tauto.
Qed.

Lemma checkWinCondition_over (s : t) :
  gameOver s = true -> checkWinCondition s = s.
Proof. unfold checkWinCondition. now intros ->. Qed.

Lemma onGoalScored_guard (side : string) (s : t) :
  0 < goalDelay s \/ gameOver s = true -> onGoalScored side s = s.
Proof.
  unfold onGoalScored. intros [H| ->].
  - destruct (Z.gtb_spec (goalDelay s) 0); [reflexivity|lia].
  - now rewrite orb_true_r.
Qed.

Lemma onGoalScored_pass (side : string) (s : t) :
  goalDelay s <= 0 -> gameOver s = false ->
  onGoalScored side s = checkWinCondition (scored side s).
Proof.
  unfold onGoalScored, scored. intros Hd ->.
  destruct (Z.gtb_spec (goalDelay s) 0); [lia|reflexivity].
Qed.

Lemma scored_fields (side : string) (s : t) :
  let s' := scored side s in
  player1Score s' =
    (if String.eqb side "left" then player1Score s else player1Score s + 1)
  /\ player2Score s' =
    (if String.eqb side "left" then player2Score s + 1 else player2Score s)
  /\ world s' = Puck.reset (puck (objects s)) (world s)
  /\ goalDelay s' = GameConfig.GOAL_DELAY_FRAMES
  /\ puckResets s' = S (puckResets s)
  /\ gameOver s' = gameOver s /\ gameTime s' = gameTime s
  /\ winner s' = winner s /\ delayedCalls s' = delayedCalls s
  /\ objects s' = objects s.
Proof.
  unfold scored. destruct s as [p1 p2 gt go gd wn wd te st tt dc pr ob].
  destruct (String.eqb side "left"); simpl; tauto.
Qed.

(** C2.  With the game running and no goal delay pending, a goal on the
    left adds exactly one to player 2's score and leaves player 1's
    alone, a goal on the right adds exactly one to player 1's and leaves
    player 2's alone; in the same call the puck is reset and the delay is
    set to [GOAL_DELAY_FRAMES], and only then is the win condition
    evaluated (on the scene [s'] below). *)
Theorem onGoalScored_credits_opponent (s : t) :
  gameOver s = false -> goalDelay s = 0 ->
  (player2Score (onGoalScored "left" s) = player2Score s + 1
   /\ player1Score (onGoalScored "left" s) = player1Score s)
  /\ (player1Score (onGoalScored "right" s) = player1Score s + 1
      /\ player2Score (onGoalScored "right" s) = player2Score s)
  /\ forall side, side = "left" \/ side = "right" ->
     (exists s',
        onGoalScored side s = checkWinCondition s'
        /\ world s' = Puck.reset (puck (objects s)) (world s)
        /\ goalDelay s' = GameConfig.GOAL_DELAY_FRAMES
        /\ gameOver s' = false
        /\ totalScore s' = totalScore s + 1)
     /\ world (onGoalScored side s) = Puck.reset (puck (objects s)) (world s)
     /\ goalDelay (onGoalScored side s) = GameConfig.GOAL_DELAY_FRAMES
     /\ puckResets (onGoalScored side s) = S (puckResets s).
Proof.
  intros Hgo Hgd.
  assert (Hpass : forall side,
             onGoalScored side s = checkWinCondition (scored side s)).
  { intros side. apply onGoalScored_pass; [lia|exact Hgo]. }
  split; [|split].
  - rewrite Hpass.
    destruct (checkWinCondition_frame (scored "left" s))
      as (-> & -> & _).
    destruct (scored_fields "left" s) as (-> & -> & _). simpl. lia.
  - rewrite Hpass.
    destruct (checkWinCondition_frame (scored "right" s))
      as (-> & -> & _).
    destruct (scored_fields "right" s) as (-> & -> & _). simpl. lia.
  - intros side Hside. rewrite Hpass.
    destruct (checkWinCondition_frame (scored side s))
      as (_ & _ & _ & -> & -> & -> & _).
    destruct (scored_fields side s)
      as (H1 & H2 & Hw & Hd & Hr & Hg & _).
    repeat split; try assumption.
    exists (scored side s). repeat split; try congruence.
    unfold totalScore. rewrite H1, H2.
    destruct (String.eqb side "left"); lia.
Qed.

Lemma onGoalScored_credits_opponent_witness :
  exists s0, create = Some s0
    /\ player2Score (onGoalScored "left" s0) = 1
    /\ player1Score (onGoalScored "right" s0) = 1.
Proof.
  eexists. split; [vm_compute; reflexivity|].
  match goal with
  | |- player2Score (onGoalScored _ ?s0) = _ /\ _ =>
      destruct (onGoalScored_credits_opponent s0 eq_refl eq_refl)
        as ((H1 & _) & (H2 & _) & _)
  end.
  split; [exact H1|exact H2].
Defined.
Lemma update_over (p1Input p2Input : Input.t) (s : t) :
  gameOver s = true -> update p1Input p2Input s = s.
Proof. unfold update. now intros ->. Qed.

Lemma update_frame (p1Input p2Input : Input.t) (s : t) :
  let s' := update p1Input p2Input s in
  player1Score s' = player1Score s /\ player2Score s' = player2Score s
  /\ gameTime s' = gameTime s /\ gameOver s' = gameOver s
  /\ winner s' = winner s /\ delayedCalls s' = delayedCalls s
  /\ puckResets s' = puckResets s /\ objects s' = objects s
  /\ goalDelay s' =
     (if gameOver s then goalDelay s
      else if goalDelay s >? 0 then goalDelay s - 1 else goalDelay s).
Proof.
  unfold update. destruct s as [p1 p2 gt go gd wn wd te st tt dc pr ob].
  simpl. destruct go; simpl; [tauto|].
  destruct (gd >? 0), (Input.active p1Input), (Input.active p2Input);
    simpl; tauto.
Qed.

Lemma updateTimer_over (s : t) : gameOver s = true -> updateTimer s = s.
Proof. unfold updateTimer. now intros ->. Qed.

Lemma updateTimer_frame (s : t) :
  let s' := updateTimer s in
  player1Score s' = player1Score s /\ player2Score s' = player2Score s
  /\ goalDelay s' = goalDelay s /\ world s' = world s
  /\ puckResets s' = puckResets s /\ objects s' = objects s.
Proof.
  unfold updateTimer. destruct (gameOver s) eqn:Hgo; [simpl; tauto|].
  cbv zeta.
  set (s1 := set_gameTime (gameTime s - 1) s).
  assert (H1 : player1Score s1 = player1Score s
               /\ player2Score s1 = player2Score s
               /\ goalDelay s1 = goalDelay s /\ world s1 = world s
               /\ puckResets s1 = puckResets s /\ objects s1 = objects s).
  { subst s1. destruct s; simpl; tauto. }
  set (s2 := if gameTime s1 <=? 0
             then checkWinCondition (set_gameTime 0 s1) else s1).
  assert (H2 : player1Score s2 = player1Score s
               /\ player2Score s2 = player2Score s
               /\ goalDelay s2 = goalDelay s /\ world s2 = world s
               /\ puckResets s2 = puckResets s /\ objects s2 = objects s).
  { subst s2. destruct (gameTime s1 <=? 0); [|exact H1].
    destruct (checkWinCondition_frame (set_gameTime 0 s1))
      as (-> & -> & _ & -> & -> & -> & -> & _).
    clear -H1. destruct s1; simpl in *; tauto. }
  clearbody s2. clear -H2. destruct s2; simpl in *; tauto.
Qed.

Lemma dispatchPair_guard (pair : Body * Body) (s : t) :
  0 < goalDelay s \/ gameOver s = true -> dispatchPair onGoalScored s pair = s.
Proof.
  intros Hg. destruct pair as [a b]. unfold dispatchPair.
  repeat match goal with
    | |- context [if ?c then _ else _] => destruct c
    end; rewrite ?(onGoalScored_guard _ s Hg); reflexivity.
Qed.

Lemma dispatch_guard (pairs : list (Body * Body)) (s : t) :
  0 < goalDelay s \/ gameOver s = true -> collisionstart pairs s = s.
Proof.
  intros Hg. unfold collisionstart, dispatch.
  induction pairs as [|pair pairs IH]; [reflexivity|].
  simpl. now rewrite dispatchPair_guard.
Qed.

(** Once a goal has been let through, nothing in a run that has fewer
    frames than the remaining delay changes the score. *)
Lemma run_in_cooldown (es : list Event) (s : t) :
  gameOver s = true \/ frames es < goalDelay s ->
  player1Score (run es s) = player1Score s
  /\ player2Score (run es s) = player2Score s.
Proof.
  revert s. induction es as [|e es IH]; intros s Hinv; [now split|].
  assert (Hfr : 0 <= frames es) by (unfold frames; lia).
  assert (Hguard : gameOver s = true \/ 0 < goalDelay s ->
                   0 < goalDelay s \/ gameOver s = true) by tauto.
  unfold run in *. simpl fold_left. destruct e as [pairs|side| |i1 i2]; simpl handle.
  - rewrite dispatch_guard; [apply IH|]; unfold frames in *; simpl in *;
      destruct Hinv; auto; lia.
  - rewrite onGoalScored_guard; [apply IH|]; unfold frames in *; simpl in *;
      destruct Hinv; auto; lia.
  - destruct (updateTimer_frame s) as (E1 & E2 & E3 & _).
    rewrite <- E1, <- E2. apply IH. rewrite E3.
    destruct Hinv as [Hgo|Hlt].
    + left. now rewrite updateTimer_over.
    + right. unfold frames in *. simpl in *. lia.
  - destruct (update_frame i1 i2 s) as (E1 & E2 & _ & E4 & _ & _ & _ & _ & E9).
    rewrite <- E1, <- E2. apply IH. rewrite E4, E9.
    destruct Hinv as [Hgo|Hlt]; [now left|].
    destruct (gameOver s); [now left|right].
    assert (frames (Update i1 i2 :: es) = frames es + 1)
      by (unfold frames; simpl; lia).
    destruct (Z.gtb_spec (goalDelay s) 0); lia.
Qed.

(** C3.  While a goal delay is pending, or once the game is over,
    [onGoalScored] changes nothing at all, for either side.  Hence a burst
    of goal events (direct or through the collision handler) that starts
    with no delay pending and spans fewer frames than the delay adds
    exactly one to the score in total: the first event scores, the rest
    are dropped.  The delay counter goes down by one per [update] call and
    is not touched by the timer. *)
Theorem goal_delay_drops_repeated_goals :
  (forall (s : t) (side : string),
      0 < goalDelay s \/ gameOver s = true -> onGoalScored side s = s)
  /\ (forall (s : t) (side : string) (rest : list Event),
        side = "left" \/ side = "right" ->
        gameOver s = false -> goalDelay s = 0 ->
        frames rest < GameConfig.GOAL_DELAY_FRAMES ->
        let s' := run (GoalScored side :: rest) s in
        totalScore s' = totalScore s + 1
        /\ player1Score s' = player1Score (onGoalScored side s)
        /\ player2Score s' = player2Score (onGoalScored side s))
  /\ (forall (p1Input p2Input : Input.t) (s : t),
        goalDelay (update p1Input p2Input s) =
          (if gameOver s then goalDelay s
           else if goalDelay s >? 0 then goalDelay s - 1 else goalDelay s))
  /\ (forall s : t, goalDelay (updateTimer s) = goalDelay s).
Proof.
  split; [|split; [|split]].
  - intros s side Hg. now apply onGoalScored_guard.
  - intros s side rest Hside Hgo Hgd Hfr. cbv zeta.
    change (run (GoalScored side :: rest) s)
      with (run rest (onGoalScored side s)).
    assert (E : onGoalScored side s = checkWinCondition (scored side s))
      by (apply onGoalScored_pass; [lia|exact Hgo]).
    destruct (checkWinCondition_frame (scored side s))
      as (F1 & F2 & _ & Fd & _).
    destruct (scored_fields side s) as (G1 & G2 & _ & Gd & _).
    destruct (run_in_cooldown rest (onGoalScored side s)) as [E1 E2].
    { right. now rewrite E, Fd, Gd. }
    split; [|now split].
    unfold totalScore. rewrite E1, E2, E, F1, F2, G1, G2.
    destruct (String.eqb side "left"); lia.
  - intros i1 i2 s. apply update_frame.
  - intros s. apply updateTimer_frame.
Qed.

Lemma goal_delay_drops_repeated_goals_witness :
  exists s0, create = Some s0
    /\ totalScore
         (run [GoalScored "left"; GoalScored "left";
               Update Input.none Input.none; GoalScored "right"; TimerTick;
               GoalScored "left"] s0) = 1.
Proof.
  eexists. split; [vm_compute; reflexivity|].
  match goal with
  | |- totalScore (run (_ :: ?rest) ?s0) = _ =>
      destruct goal_delay_drops_repeated_goals as (_ & H & _);
      destruct (H s0 "left" rest) as (Ht & _)
  end.
  - now left.
  - reflexivity.
  - reflexivity.
  - reflexivity.
  - exact Ht.
Defined.
Lemma endGame_fields (w : Z) (s : t) :
  gameOver (endGame w s) = true /\ winner (endGame w s) = Some w
  /\ player1Score (endGame w s) = player1Score s
  /\ player2Score (endGame w s) = player2Score s
  /\ delayedCalls (endGame w s) =
     (delayedCalls s ++ [(1000, StartGameOverScene)])%list.
Proof. rewrite endGame_eq. simpl. tauto. Qed.

Lemma updateTimer_expired (s : t) :
  gameOver s = false -> gameTime s <= 1 ->
  exists txt,
    updateTimer s = set_timerText txt (checkWinCondition (set_gameTime 0 s)).
Proof.
  intros Hgo Hgt. unfold updateTimer. rewrite Hgo. cbv zeta.
  assert (E : gameTime (set_gameTime (gameTime s - 1) s) = gameTime s - 1)
    by (destruct s; reflexivity).
  rewrite E. destruct (Z.leb_spec (gameTime s - 1) 0); [|lia].
  assert (E0 : set_gameTime 0 (set_gameTime (gameTime s - 1) s)
               = set_gameTime 0 s) by (destruct s; reflexivity).
  rewrite E0. eexists. reflexivity.
Qed.

(** C4.  On a running game [checkWinCondition] ends the game for player 1
    if player 1 has reached [MAX_GOALS], else for player 2 if player 2 has,
    whatever time is left; else, when the time is up, for the player with
    the strictly higher score, or as a tie (winner 0) on equal scores;
    else it changes nothing.  Ending the game sets [gameOver] and records
    the winner.  In particular: at 9-9 a left goal makes it 9-10 and ends
    the game for player 2 whatever the clock says; time up at 4-6 gives
    player 2, also through the timer's last tick; time up at 5-5 gives a
    tie. *)
Theorem checkWinCondition_decides :
  (forall s : t, gameOver s = false ->
     (GameConfig.MAX_GOALS <= player1Score s ->
      checkWinCondition s = endGame 1 s)
     /\ (player1Score s < GameConfig.MAX_GOALS ->
         GameConfig.MAX_GOALS <= player2Score s ->
         checkWinCondition s = endGame 2 s)
     /\ (player1Score s < GameConfig.MAX_GOALS ->
         player2Score s < GameConfig.MAX_GOALS ->
         gameTime s <= 0 ->
         (player2Score s < player1Score s -> checkWinCondition s = endGame 1 s)
         /\ (player1Score s < player2Score s ->
             checkWinCondition s = endGame 2 s)
         /\ (player1Score s = player2Score s ->
             checkWinCondition s = endGame 0 s))
     /\ (player1Score s < GameConfig.MAX_GOALS ->
         player2Score s < GameConfig.MAX_GOALS ->
         0 < gameTime s ->
         checkWinCondition s = s))
  /\ (forall (w : Z) (s : t),
        gameOver (endGame w s) = true /\ winner (endGame w s) = Some w
        /\ player1Score (endGame w s) = player1Score s
        /\ player2Score (endGame w s) = player2Score s)
  /\ (forall s : t,
        gameOver s = false -> goalDelay s = 0 ->
        player1Score s = 9 -> player2Score s = 9 ->
        let r := onGoalScored "left" s in
        player1Score r = 9 /\ player2Score r = 10
        /\ gameOver r = true /\ winner r = Some 2)
  /\ (forall s : t,
        gameOver s = false -> gameTime s = 0 ->
        player1Score s = 4 -> player2Score s = 6 ->
        gameOver (checkWinCondition s) = true
        /\ winner (checkWinCondition s) = Some 2)
  /\ (forall s : t,
        gameOver s = false -> gameTime s = 1 ->
        player1Score s = 4 -> player2Score s = 6 ->
        gameOver (updateTimer s) = true /\ winner (updateTimer s) = Some 2
        /\ gameTime (updateTimer s) = 0)
  /\ (forall s : t,
        gameOver s = false -> gameTime s = 0 ->
        player1Score s = 5 -> player2Score s = 5 ->
        gameOver (checkWinCondition s) = true
        /\ winner (checkWinCondition s) = Some 0).
Proof.
  assert (Hcases : forall s : t, gameOver s = false ->
     (GameConfig.MAX_GOALS <= player1Score s ->
      checkWinCondition s = endGame 1 s)
     /\ (player1Score s < GameConfig.MAX_GOALS ->
         GameConfig.MAX_GOALS <= player2Score s ->
         checkWinCondition s = endGame 2 s)
     /\ (player1Score s < GameConfig.MAX_GOALS ->
         player2Score s < GameConfig.MAX_GOALS ->
         gameTime s <= 0 ->
         (player2Score s < player1Score s -> checkWinCondition s = endGame 1 s)
         /\ (player1Score s < player2Score s ->
             checkWinCondition s = endGame 2 s)
         /\ (player1Score s = player2Score s ->
             checkWinCondition s = endGame 0 s))
     /\ (player1Score s < GameConfig.MAX_GOALS ->
         player2Score s < GameConfig.MAX_GOALS ->
         0 < gameTime s ->
         checkWinCondition s = s)).
  { intros s Hgo. unfold checkWinCondition. rewrite Hgo.
    repeat split; intros; zbool; try reflexivity; lia. }
  assert (Hend : forall (w : Z) (s : t),
        gameOver (endGame w s) = true /\ winner (endGame w s) = Some w
        /\ player1Score (endGame w s) = player1Score s
        /\ player2Score (endGame w s) = player2Score s).
  { intros w s. destruct (endGame_fields w s) as (? & ? & ? & ? & _). tauto. }
  split; [exact Hcases|]. split; [exact Hend|].
  split; [|split; [|split]].
  - intros s Hgo Hgd H1 H2. cbv zeta.
    rewrite onGoalScored_pass by (assumption || lia).
    destruct (scored_fields "left" s) as (E1 & E2 & _ & _ & _ & Eg & _).
    simpl in E1, E2. rewrite Hgo in Eg.
    destruct (Hcases (scored "left" s) Eg) as (_ & Hc & _).
    rewrite Hc by (rewrite ?E1, ?E2, ?H1, ?H2; unfold GameConfig.MAX_GOALS; lia).
    destruct (Hend 2 (scored "left" s)) as (-> & -> & -> & ->).
    rewrite E1, E2, H1, H2. repeat split; reflexivity.
  - intros s Hgo Hgt H1 H2.
    destruct (Hcases s Hgo) as (_ & _ & Hc & _).
    destruct Hc as (_ & Hc & _);
      try (rewrite ?H1, ?H2, ?Hgt; unfold GameConfig.MAX_GOALS; lia).
    rewrite Hc by lia. destruct (Hend 2 s) as (-> & -> & _). now split.
  - intros s Hgo Hgt H1 H2.
    destruct (updateTimer_expired s Hgo) as [txt ->]; [lia|].
    set (s1 := set_gameTime 0 s).
    assert (F : gameOver s1 = false /\ gameTime s1 = 0
                /\ player1Score s1 = 4 /\ player2Score s1 = 6).
    { subst s1. destruct s; simpl in *. tauto. }
    destruct F as (Fg & Ft & F1 & F2).
    destruct (Hcases s1 Fg) as (_ & _ & Hc & _).
    destruct Hc as (_ & Hc & _);
      try (rewrite ?F1, ?F2, ?Ft; unfold GameConfig.MAX_GOALS; lia).
    rewrite Hc by lia. rewrite endGame_eq. simpl. now rewrite Ft.
  - intros s Hgo Hgt H1 H2.
    destruct (Hcases s Hgo) as (_ & _ & Hc & _).
    destruct Hc as (_ & _ & Hc);
      try (rewrite ?H1, ?H2, ?Hgt; unfold GameConfig.MAX_GOALS; lia).
    rewrite Hc by lia. destruct (Hend 0 s) as (-> & -> & _). now split.
Qed.

Lemma checkWinCondition_decides_witness :
  exists s0, create = Some s0
    /\ winner (onGoalScored "left"
                 (set_player1Score 9 (set_player2Score 9 s0))) = Some 2
    /\ winner (checkWinCondition
                 (set_gameTime 0
                    (set_player1Score 5 (set_player2Score 5 s0)))) = Some 0.
Proof.
  eexists. split; [vm_compute; reflexivity|].
  destruct checkWinCondition_decides as (_ & _ & H9 & _ & _ & H5).
  match goal with
  | |- winner (onGoalScored _ ?a) = _ /\ winner (checkWinCondition ?b) = _ =>
      destruct (H9 a) as (_ & _ & _ & Hw); try reflexivity;
      destruct (H5 b) as (_ & Ht); try reflexivity
  end.
  split; [exact Hw|exact Ht].
Defined.

Lemma checkWinCondition_idempotent (s : t) :
  checkWinCondition (checkWinCondition s) = checkWinCondition s.
Proof.
  destruct (checkWinCondition_cases s) as [E|[_ [w ->]]];
    [now rewrite !E|].
  apply checkWinCondition_over. apply endGame_fields.
Qed.

Lemma run_over (es : list Event) (s : t) :
  gameOver s = true -> run es s = s.
Proof.
  intros Hgo. unfold run. induction es as [|e es IH]; [reflexivity|].
  simpl. destruct e; simpl.
  - rewrite dispatch_guard by now right. exact IH.
  - rewrite onGoalScored_guard by now right. exact IH.
  - rewrite updateTimer_over by exact Hgo. exact IH.
  - rewrite update_over by exact Hgo. exact IH.
Qed.

(** C5.  Once [gameOver] is set, [checkWinCondition], [updateTimer],
    [onGoalScored], the collision handler and [update] return the scene
    they were given: scores, time, delay, winner and [gameOver] stay as
    they are and no further game-over callback is scheduled; so does any
    run of them, and any number of repeated [checkWinCondition] calls.
    [checkWinCondition] is idempotent on every scene. *)
Theorem game_over_is_terminal (s : t) :
  gameOver s = true ->
  checkWinCondition s = s
  /\ updateTimer s = s
  /\ (forall side, onGoalScored side s = s)
  /\ (forall p1Input p2Input, update p1Input p2Input s = s)
  /\ (forall pairs, collisionstart pairs s = s)
  /\ (forall es, run es s = s)
  /\ (forall n, Nat.iter n checkWinCondition s = s)
  /\ (forall n,
        winner (Nat.iter n checkWinCondition s) = winner s
        /\ delayedCalls (Nat.iter n checkWinCondition s) = delayedCalls s)
  /\ (forall s' : t,
        checkWinCondition (checkWinCondition s') = checkWinCondition s').
Proof.
  intros Hgo.
  assert (Hiter : forall n, Nat.iter n checkWinCondition s = s).
  { induction n as [|n IH]; [reflexivity|].
    simpl. rewrite IH. now apply checkWinCondition_over. }
  repeat split.
  - now apply checkWinCondition_over.
  - now apply updateTimer_over.
  - intros side. apply onGoalScored_guard. now right.
  - intros i1 i2. now apply update_over.
  - intros pairs. apply dispatch_guard. now right.
  - intros es. now apply run_over.
  - exact Hiter.
  - now rewrite Hiter.
  - now rewrite Hiter.
  - apply checkWinCondition_idempotent.
Qed.

Lemma game_over_is_terminal_witness :
  exists s0, create = Some s0
    /\ run [GoalScored "left"; TimerTick; Update Input.none Input.none]
           (endGame 1 s0) = endGame 1 s0.
Proof.
  eexists. split; [vm_compute; reflexivity|].
  match goal with
  | |- run ?es ?s = _ =>
      destruct (game_over_is_terminal s) as (_ & _ & _ & _ & _ & H & _)
  end.
  - apply endGame_fields.
  - apply H.
Defined.
(** ** The puck's reset *)

Lemma lookup_updateBody (h : nat) (f : Body -> Body) (w : World) (b : Body) :
  bodies w !! h = Some b ->
  bodies (Matter.updateBody h f w) !! h = Some (f b).
Proof.
  intros Hb. unfold Matter.updateBody. rewrite Hb. simpl.
  apply list_lookup_insert_eq. now apply lookup_lt_Some with b.
Qed.

Lemma Puck_reset_body (p : Puck.t) (w : World) :
  (Puck.body p < length (bodies w))%nat ->
  exists b, bodies (Puck.reset p w) !! Puck.body p = Some b
    /\ position b = Vector.mk (Puck.startX p) (Puck.startY p)
    /\ velocity b = Vector.mk 0 0 /\ angularVelocity b = 0%Q.
Proof.
  intros Hlt. destruct (lookup_lt_is_Some_2 (bodies w) _ Hlt) as [b Hb].
  unfold Puck.reset, Matter.setAngularVelocity, Matter.setVelocity,
    Matter.setPosition.
  eexists. split.
  - apply lookup_updateBody, lookup_updateBody, lookup_updateBody, Hb.
  - simpl. repeat split.
Qed.

Lemma length_Puck_reset (p : Puck.t) (w : World) :
  length (bodies (Puck.reset p w)) = length (bodies w).
Proof.
  unfold Puck.reset, Matter.setAngularVelocity, Matter.setVelocity,
    Matter.setPosition. now rewrite !length_updateBody.
Qed.

Lemma length_Hammer_update (m : Hammer.t) (w : World) :
  length (bodies (Hammer.update m w)) = length (bodies w).
Proof.
  unfold Hammer.update. destruct (Matter.positionOf _ w); [|reflexivity].
  repeat match goal with
    | |- context [if ?c then _ else _] => destruct c
    end; simpl; try reflexivity; apply length_updateBody.
Qed.

Lemma length_update (p1Input p2Input : Input.t) (s : t) :
  length (bodies (world (update p1Input p2Input s))) = length (bodies (world s)).
Proof.
  unfold update. destruct s as [p1 p2 gt go gd wn wd te st tt dc pr ob].
  simpl. destruct go; simpl; [reflexivity|].
  destruct (gd >? 0), (Input.active p1Input), (Input.active p2Input); simpl;
    rewrite !length_Hammer_update; unfold Striker.setPosition,
    Matter.setPosition; now rewrite ?length_updateBody.
Qed.

Lemma onGoalScored_effect (side : string) (s : t) :
  let s' := onGoalScored side s in
  objects s' = objects s
  /\ length (bodies (world s')) = length (bodies (world s))
  /\ puckResets s' =
     (if (goalDelay s >? 0) || gameOver s then puckResets s
      else S (puckResets s))
  /\ totalScore s' =
     (if (goalDelay s >? 0) || gameOver s then totalScore s
      else totalScore s + 1).
Proof.
  cbv zeta. unfold onGoalScored.
  destruct ((goalDelay s >? 0) || gameOver s); [tauto|].
  fold (scored side s).
  destruct (checkWinCondition_frame (scored side s))
    as (E1 & E2 & _ & _ & -> & -> & -> & _).
  unfold totalScore. rewrite E1, E2.
  destruct (scored_fields side s)
    as (-> & -> & -> & _ & -> & _ & _ & _ & _ & ->).
  rewrite length_Puck_reset.
  repeat split; destruct (String.eqb side "left"); lia.
Qed.

Lemma reached_from_refl (s0 : t) : reached_from s0 s0.
Proof. unfold reached_from. repeat split; lia. Qed.

Lemma reached_from_onGoalScored (s0 s : t) (side : string) :
  reached_from s0 s -> reached_from s0 (onGoalScored side s).
Proof.
  intros (Ho & Hl & Hr).
  destruct (onGoalScored_effect side s) as (Eo & El & Er & Et).
  unfold reached_from. rewrite Eo, El, Er, Et.
  destruct ((goalDelay s >? 0) || gameOver s); repeat split; auto; lia.
Qed.

Lemma reached_from_handle (s0 s : t) (e : Event) :
  reached_from s0 s -> reached_from s0 (handle s e).
Proof.
  intros Hr. destruct e as [pairs|side| |i1 i2]; simpl.
  - unfold collisionstart, dispatch. revert s Hr.
    induction pairs as [|[a b] pairs IH]; intros s Hr; [exact Hr|].
    simpl. apply IH.
    repeat match goal with
      | |- context [if ?c then _ else _] => destruct c
      end; auto using reached_from_onGoalScored.
  - now apply reached_from_onGoalScored.
  - destruct Hr as (Ho & Hl & Hr).
    destruct (updateTimer_frame s) as (E1 & E2 & _ & Ew & Ep & Eo).
    unfold reached_from, totalScore. rewrite E1, E2, Ew, Ep, Eo.
    repeat split; assumption.
  - destruct Hr as (Ho & Hl & Hr).
    destruct (update_frame i1 i2 s)
      as (E1 & E2 & _ & _ & _ & _ & Ep & Eo & _).
    unfold reached_from, totalScore.
    rewrite E1, E2, Ep, Eo, length_update. repeat split; assumption.
Qed.

Lemma reached_from_run (s0 : t) (es : list Event) :
  reached_from s0 (run es s0).
Proof.
  unfold run. generalize (reached_from_refl s0).
  generalize s0 at 2 4 as s. induction es as [|e es IH]; intros s Hr;
    [exact Hr|].
  simpl. apply IH. now apply reached_from_handle.
Qed.
Lemma create_puck (s0 : t) :
  create = Some s0 ->
  puck (objects s0) =
    Puck.mk (GameConfig.GAME_WIDTH / 2) (GameConfig.GAME_HEIGHT / 2) 12
  /\ length (bodies (world s0)) = 33%nat
  /\ puckResets s0 = 0%nat /\ totalScore s0 = 0.
Proof.
  intros H. vm_compute in H. injection H as <-. vm_compute. repeat split.
Qed.

(** C6.  [Puck.reset] puts the puck's body at the spawn coordinates kept
    in [startX], [startY] with zero linear and angular velocity, whatever
    its position and velocities were; for the puck of the created scene
    these are the field centre [(GAME_WIDTH / 2, GAME_HEIGHT / 2)], where
    [GAME_WIDTH / 2] is [CENTER_LINE_X].  [reset] is called by
    [onGoalScored] exactly when the call scores (once), and by no other
    handler; over any run from the created scene the number of resets
    equals the number of points scored, and after every scoring call the
    puck rests at the centre. *)
Theorem puck_reset_once_per_goal :
  (forall (p : Puck.t) (w : World),
      (Puck.body p < length (bodies w))%nat ->
      exists b, bodies (Puck.reset p w) !! Puck.body p = Some b
        /\ position b = Vector.mk (Puck.startX p) (Puck.startY p)
        /\ velocity b = Vector.mk 0 0 /\ angularVelocity b = 0%Q)
  /\ (forall (px py : Q) (w : World),
        Puck.startX (fst (Puck.new px py w)) = px
        /\ Puck.startY (fst (Puck.new px py w)) = py)
  /\ (forall s0 : t, create = Some s0 ->
        Puck.startX (puck (objects s0)) = (GameConfig.GAME_WIDTH / 2)%Q
        /\ Puck.startY (puck (objects s0)) = (GameConfig.GAME_HEIGHT / 2)%Q
        /\ (Puck.startX (puck (objects s0)) == GameConfig.CENTER_LINE_X)%Q)
  /\ (forall (s : t) (side : string),
        puckResets (onGoalScored side s) =
          (if (goalDelay s >? 0) || gameOver s then puckResets s
           else S (puckResets s))
        /\ totalScore (onGoalScored side s) =
          (if (goalDelay s >? 0) || gameOver s then totalScore s
           else totalScore s + 1))
  /\ (forall (s : t) (p1Input p2Input : Input.t),
        puckResets (updateTimer s) = puckResets s
        /\ puckResets (checkWinCondition s) = puckResets s
        /\ puckResets (update p1Input p2Input s) = puckResets s)
  /\ (forall (s0 : t) (es : list Event), create = Some s0 ->
        Z.of_nat (puckResets (run es s0)) = totalScore (run es s0))
  /\ (forall (s0 : t) (es : list Event) (side : string),
        create = Some s0 ->
        gameOver (run es s0) = false -> goalDelay (run es s0) <= 0 ->
        exists b,
          bodies (world (onGoalScored side (run es s0)))
            !! Puck.body (puck (objects s0)) = Some b
          /\ position b = Vector.mk (GameConfig.GAME_WIDTH / 2)
                                    (GameConfig.GAME_HEIGHT / 2)
          /\ velocity b = Vector.mk 0 0 /\ angularVelocity b = 0%Q).
Proof.
  split; [exact Puck_reset_body|].
  split; [intros px py w; unfold Puck.new; simpl; now split|].
  split.
  { intros s0 H. destruct (create_puck s0 H) as (-> & _). simpl.
    repeat split. }
  split.
  { intros s side. destruct (onGoalScored_effect side s) as (_ & _ & ? & ?).
    now split. }
  split.
  { intros s i1 i2. repeat split.
    - apply updateTimer_frame.
    - apply checkWinCondition_frame.
    - apply update_frame. }
  split.
  { intros s0 es H. destruct (reached_from_run s0 es) as (_ & _ & Hr).
    destruct (create_puck s0 H) as (_ & _ & E1 & E2).
    rewrite E1, E2 in Hr. lia. }
  intros s0 es side H Hgo Hgd.
  destruct (reached_from_run s0 es) as (Ho & Hl & _).
  destruct (create_puck s0 H) as (Ep & El & _).
  rewrite onGoalScored_pass by assumption.
  destruct (checkWinCondition_frame (scored side (run es s0)))
    as (_ & _ & _ & _ & -> & _).
  destruct (scored_fields side (run es s0)) as (_ & _ & -> & _).
  rewrite Ho.
  destruct (Puck_reset_body (puck (objects s0)) (world (run es s0)))
    as (b & Hb & Hp & Hv & Ha).
  { rewrite Hl, El, Ep. simpl. lia. }
  exists b. rewrite Hp, Ep in *. simpl. repeat split; assumption.
Qed.

Lemma puck_reset_once_per_goal_witness :
  exists s0, create = Some s0
    /\ (exists b,
          bodies (Puck.reset (puck (objects s0))
                    (Matter.setVelocity 12 (Vector.mk 1000000 (-3))
                       (Matter.setPosition 12 (Vector.mk 7 9) (world s0))))
            !! 12%nat = Some b
          /\ position b = Vector.mk (GameConfig.GAME_WIDTH / 2)
                                    (GameConfig.GAME_HEIGHT / 2)
          /\ velocity b = Vector.mk 0 0)
    /\ Z.of_nat (puckResets
                   (run [GoalScored "left"; Update Input.none Input.none;
                         GoalScored "left"] s0)) = 1.
Proof.
  eexists. split; [vm_compute; reflexivity|].
  destruct puck_reset_once_per_goal as (Hreset & _ & _ & _ & _ & Hcount & _).
  split.
  - match goal with
    | |- exists b, bodies (Puck.reset ?p ?w) !! _ = _ /\ _ =>
        destruct (Hreset p w) as (b & Hb & Hp & Hv & _)
    end.
    + vm_compute. lia.
    + exists b. repeat split; assumption.
  - match goal with
    | |- Z.of_nat (puckResets (run ?es ?s0)) = _ =>
        rewrite (Hcount s0 es) by (vm_compute; reflexivity)
    end.
    vm_compute. reflexivity.
Defined.
End Controller.

(** ** Chain construction *)

Lemma fold_addSegment (player : Z) (sp : Vector.t) (dx dy : Q)
    (n k : nat) (acc : list nat) (w : World) :
  fold_left (ChainSystem.addSegment player sp dx dy) (seq k n) (acc, w) =
  ((acc ++ seq (length (bodies w)) n)%list,
   mkWorld
     (bodies w ++ map (ChainSystem.segmentBody player sp dx dy) (seq k n))%list
     (constraints w)).
Proof.
  revert k acc w. induction n as [|n IH]; intros k acc w.
  - simpl. rewrite !app_nil_r. now destruct w.
  - simpl. unfold ChainSystem.addSegment at 2. simpl. rewrite IH. simpl.
    rewrite length_app. simpl. rewrite Nat.add_1_r.
    rewrite <- !app_assoc. reflexivity.
Qed.

Lemma fold_link (segs : list nat) (l : list nat)
    (acc : list Constraint.t * World) :
  fold_left
    (fun acc i => ChainSystem.link (segs !! i) (segs !! (i + 1)%nat) acc)
    l acc
  = ((fst acc ++ map (linkOf segs) l)%list,
     mkWorld (bodies (snd acc))
             (constraints (snd acc) ++ map (linkOf segs) l)%list).
Proof.
  revert acc. induction l as [|i l IH]; intros [cs w].
  - simpl. rewrite !app_nil_r. now destruct w.
  - simpl. rewrite IH. unfold ChainSystem.link. simpl.
    rewrite <- !app_assoc. reflexivity.
Qed.

(** The result of [createChain], in closed form. *)
Lemma createChain_eq (n : nat) (player : Z) (s : Striker.t) (m : Hammer.t)
    (w : World) (sp hp : Vector.t) :
  Striker.getPosition s w = Some sp -> Hammer.getPosition m w = Some hp ->
  let dx := ((Vector.x hp - Vector.x sp) / inject_Z (Z.of_nat (n + 1)))%Q in
  let dy := ((Vector.y hp - Vector.y sp) / inject_Z (Z.of_nat (n + 1)))%Q in
  let segs := seq (length (bodies w)) n in
  let cs :=
    (Constraint.mk (Some (Striker.body s)) (segs !! 0%nat)
       GameConfig.CHAIN.SEGMENT_LENGTH GameConfig.CHAIN.STIFFNESS
       GameConfig.CHAIN.DAMPING
     :: map (linkOf segs) (seq 0 (n - 1))
     ++ [Constraint.mk (segs !! (n - 1)%nat) (Some (Hammer.body m))
           GameConfig.CHAIN.SEGMENT_LENGTH GameConfig.CHAIN.STIFFNESS
           GameConfig.CHAIN.DAMPING])%list in
  ChainSystem.createChain n player s m w =
  Some (segs, cs,
        mkWorld
          (bodies w ++ map (ChainSystem.segmentBody player sp dx dy) (seq 0 n))%list
          (constraints w ++ cs)%list).
Proof.
  intros Hs Hh. cbv zeta. unfold ChainSystem.createChain.
  rewrite Hs, Hh. rewrite fold_addSegment. cbn [app].
  rewrite fold_link. unfold ChainSystem.link. cbn.
  rewrite length_seq. rewrite <- !app_assoc. reflexivity.
Qed.

Lemma along_segment (a b : Q) (i n : nat) :
  (a + (b - a) / inject_Z (Z.of_nat (n + 1)) * inject_Z (Z.of_nat (i + 1))
   == along a b i n)%Q.
Proof.
  unfold along. field.
  intros H. apply (Qeq_bool_neq (inject_Z (Z.of_nat (n + 1))) 0); [|exact H].
  unfold Qeq_bool, inject_Z. simpl. apply Z.eqb_neq. lia.
Qed.

(** C9.  With [n >= 1] segments (the game uses [SEGMENTS]), [createChain]
    adds [n] link bodies, link [i] at
    [strikerPos + (hammerPos - strikerPos) * (i + 1) / (n + 1)], each with
    the chain category and an empty mask, and [n + 1] constraints of rest
    length [SEGMENT_LENGTH], stiffness [STIFFNESS] and damping [DAMPING]:
    constraint [j] joins node [j] to node [j + 1] of the sequence
    striker, link 0, ..., link [n - 1], hammer.  The constraints are
    appended to the world's in that order and the bodies already in the
    world are left as they are. *)
Theorem createChain_layout (n : nat) (player : Z) (s : Striker.t)
    (m : Hammer.t) (w : World) (sp hp : Vector.t) :
  (1 <= n)%nat ->
  Striker.getPosition s w = Some sp -> Hammer.getPosition m w = Some hp ->
  exists (segs : list nat) (cs : list Constraint.t) (w' : World),
    ChainSystem.createChain n player s m w = Some (segs, cs, w')
    /\ length segs = n
    /\ (forall i, (i < n)%nat ->
        exists h b, segs !! i = Some h /\ bodies w' !! h = Some b
          /\ (Vector.x (position b)
              == along (Vector.x sp) (Vector.x hp) i n)%Q
          /\ (Vector.y (position b)
              == along (Vector.y sp) (Vector.y hp) i n)%Q
          /\ collisionFilter b = ChainSystem.filter)
    /\ length cs = (n + 1)%nat
    /\ (forall j, (j <= n)%nat ->
        exists a b,
          (Striker.body s :: segs ++ [Hammer.body m])%list !! j = Some a
          /\ (Striker.body s :: segs ++ [Hammer.body m])%list !! (j + 1)%nat
             = Some b
          /\ cs !! j = Some (chainLink a b))
    /\ constraints w' = (constraints w ++ cs)%list
    /\ (forall h, (h < length (bodies w))%nat -> bodies w' !! h = bodies w !! h).
Proof.
  intros Hn Hs Hh.
  rewrite (createChain_eq n player s m w sp hp Hs Hh). cbv zeta.
  set (base := length (bodies w)).
  set (dx := ((Vector.x hp - Vector.x sp) / inject_Z (Z.of_nat (n + 1)))%Q).
  set (dy := ((Vector.y hp - Vector.y sp) / inject_Z (Z.of_nat (n + 1)))%Q).
  assert (Hseg : forall i, (i < n)%nat -> seq base n !! i = Some (base + i)%nat)
    by (intros i Hi; now apply lookup_seq_lt).
  do 3 eexists. split; [reflexivity|].
  split; [apply length_seq|].
  split.
  { intros i Hi. exists (base + i)%nat.
    exists (ChainSystem.segmentBody player sp dx dy i).
    split; [now apply Hseg|]. split.
    - simpl bodies. rewrite lookup_app_r by (unfold base; lia).
      replace (base + i - length (bodies w))%nat with i by (unfold base; lia).
      change (map ?f ?l) with (f <$> l).
      rewrite list_lookup_fmap, lookup_seq_lt by exact Hi. reflexivity.
    - simpl. repeat split; apply along_segment. }
  split.
  { simpl. rewrite length_app, length_map, length_seq. simpl. lia. }
  split.
  { intros j Hj.
    destruct (Nat.eq_dec j 0%nat) as [->|Hj0].
    - exists (Striker.body s), base. simpl. split; [reflexivity|].
      rewrite lookup_app_l by (rewrite length_seq; lia).
      rewrite Hseg by lia. rewrite Nat.add_0_r. split; reflexivity.
    - destruct (Nat.eq_dec j n) as [->|Hjn].
      + exists (base + (n - 1))%nat, (Hammer.body m).
        rewrite !lookup_cons_ne_0 by lia. rewrite <- !Nat.sub_1_r.
        split; [|split].
        * rewrite lookup_app_l by (rewrite length_seq; lia).
          apply Hseg. lia.
        * rewrite lookup_app_r by (rewrite length_seq; lia).
          rewrite length_seq.
          replace (n + 1 - 1 - n)%nat with 0%nat by lia. reflexivity.
        * rewrite lookup_app_r
            by (rewrite length_map, length_seq; lia).
          rewrite length_map, length_seq.
          replace (n - 1 - (n - 1))%nat with 0%nat by lia.
          simpl. rewrite Hseg by lia. reflexivity.
      + exists (base + (j - 1))%nat, (base + j)%nat.
        rewrite !lookup_cons_ne_0 by lia. rewrite <- !Nat.sub_1_r.
        split; [|split].
        * rewrite lookup_app_l by (rewrite length_seq; lia).
          apply Hseg. lia.
        * rewrite lookup_app_l by (rewrite length_seq; lia).
          replace (j + 1 - 1)%nat with j by lia. apply Hseg. lia.
        * rewrite lookup_app_l
            by (rewrite length_map, length_seq; lia).
          change (map ?f ?l) with (f <$> l).
          rewrite list_lookup_fmap, lookup_seq_lt by lia. simpl.
          unfold linkOf. rewrite !Hseg by lia.
          replace (j - 1 + 1)%nat with j by lia. reflexivity. }
  split; [reflexivity|].
  intros h Hlt. simpl. now rewrite lookup_app_l.
Qed.

Lemma createChain_layout_witness :
  exists segs cs w',
    ChainSystem.createChain GameConfig.CHAIN.SEGMENTS 1
      (fst (Striker.new 900 350 1 emptyWorld))
      (fst (Hammer.new 1000 350 1 (snd (Striker.new 900 350 1 emptyWorld))))
      (snd (Hammer.new 1000 350 1 (snd (Striker.new 900 350 1 emptyWorld))))
    = Some (segs, cs, w')
    /\ length segs = 8%nat /\ length cs = 9%nat.
Proof.
  destruct (createChain_layout GameConfig.CHAIN.SEGMENTS 1
    (fst (Striker.new 900 350 1 emptyWorld))
    (fst (Hammer.new 1000 350 1 (snd (Striker.new 900 350 1 emptyWorld))))
    (snd (Hammer.new 1000 350 1 (snd (Striker.new 900 350 1 emptyWorld))))
    (Vector.mk 900 350) (Vector.mk 1000 350))
    as (segs & cs & w' & H & Hs & _ & Hc & _).
  - vm_compute. lia.
  - reflexivity.
  - reflexivity.
  - exists segs, cs, w'. repeat split; assumption.
Defined.

(** ** Bodies keep what they were created with *)

Lemma kinds_updateBody (h : nat) (f : Body -> Body) (w : World) :
  (forall b, bodyKind (f b) = bodyKind b) ->
  map bodyKind (bodies (Matter.updateBody h f w)) = map bodyKind (bodies w).
Proof.
  intros Hf. unfold Matter.updateBody.
  destruct (bodies w !! h) as [b|] eqn:Hb; [|reflexivity].
  simpl. change (map bodyKind ?l) with (bodyKind <$> l).
  rewrite list_fmap_insert, Hf. apply list_insert_id.
  now rewrite list_lookup_fmap, Hb.
Qed.

Lemma kinds_setPosition (h : nat) (p : Vector.t) (w : World) :
  map bodyKind (bodies (Matter.setPosition h p w)) = map bodyKind (bodies w).
Proof. apply kinds_updateBody. reflexivity. Qed.

Lemma kinds_Puck_reset (p : Puck.t) (w : World) :
  map bodyKind (bodies (Puck.reset p w)) = map bodyKind (bodies w).
Proof.
  unfold Puck.reset, Matter.setAngularVelocity, Matter.setVelocity.
  rewrite !kinds_updateBody by reflexivity. apply kinds_setPosition.
Qed.

Lemma kinds_Hammer_update (m : Hammer.t) (w : World) :
  map bodyKind (bodies (Hammer.update m w)) = map bodyKind (bodies w).
Proof.
  unfold Hammer.update. destruct (Matter.positionOf _ w); [|reflexivity].
  repeat match goal with
    | |- context [if ?c then _ else _] => destruct c
    end; simpl; try reflexivity; apply kinds_setPosition.
Qed.

Lemma kinds_handle (s : GameScene.t) (e : Event) :
  map bodyKind (bodies (GameScene.world (handle s e)))
  = map bodyKind (bodies (GameScene.world s)).
Proof.
  assert (Hgoal : forall side s,
    map bodyKind (bodies (GameScene.world (GameScene.onGoalScored side s)))
    = map bodyKind (bodies (GameScene.world s))).
  { intros side s1. unfold GameScene.onGoalScored.
    destruct ((GameScene.goalDelay s1 >? 0) || GameScene.gameOver s1);
      [reflexivity|].
    fold (scored side s1).
    destruct (checkWinCondition_frame (scored side s1))
      as (_ & _ & _ & _ & -> & _).
    destruct (scored_fields side s1) as (_ & _ & -> & _).
    apply kinds_Puck_reset. }
  destruct e as [pairs|side| |i1 i2]; simpl.
  - unfold GameScene.collisionstart, GameScene.dispatch. revert s.
    induction pairs as [|[a b] pairs IH]; intros s; [reflexivity|].
    simpl. rewrite IH.
    repeat match goal with
      | |- context [if ?c then _ else _] => destruct c
      end; rewrite ?Hgoal; reflexivity.
  - apply Hgoal.
  - destruct (updateTimer_frame s) as (_ & _ & _ & -> & _). reflexivity.
  - unfold GameScene.update.
    destruct s as [p1 p2 gt go gd wn wd te st tt dc pr ob].
    simpl. destruct go; simpl; [reflexivity|].
    destruct (gd >? 0), (Input.active i1), (Input.active i2); simpl;
      rewrite !kinds_Hammer_update; unfold Striker.setPosition;
      now rewrite ?kinds_setPosition.
Qed.

Lemma kinds_run (es : list Event) (s : GameScene.t) :
  map bodyKind (bodies (GameScene.world (run es s)))
  = map bodyKind (bodies (GameScene.world s)).
Proof.
  unfold run. revert s. induction es as [|e es IH]; intros s; [reflexivity|].
  simpl. rewrite IH. apply kinds_handle.
Qed.

Lemma kind_in_world (w0 w : World) (a : Body) :
  map bodyKind (bodies w) = map bodyKind (bodies w0) ->
  In a (bodies w) ->
  exists a0, In a0 (bodies w0) /\ bodyKind a0 = bodyKind a.
Proof.
  intros Hk Ha. apply (in_map bodyKind) in Ha. rewrite Hk in Ha.
  apply in_map_iff in Ha. destruct Ha as (a0 & E & Hin). eauto.
Qed.

(** ** Collision filtering and the goal dispatcher *)

Lemma bodyKind_fields (a a' : Body) :
  bodyKind a = bodyKind a' ->
  label a = label a' /\ isStatic a = isStatic a'
  /\ isSensor a = isSensor a' /\ collisionFilter a = collisionFilter a'.
Proof. unfold bodyKind. intros H. injection H as -> _ _ -> -> ->. tauto. Qed.

Lemma candidate_kind (a a' b b' : Body) :
  bodyKind a = bodyKind a' -> bodyKind b = bodyKind b' ->
  Detector.candidate a b = Detector.candidate a' b'.
Proof.
  intros Ha Hb.
  destruct (bodyKind_fields _ _ Ha) as (_ & Ea1 & _ & Ea2).
  destruct (bodyKind_fields _ _ Hb) as (_ & Eb1 & _ & Eb2).
  unfold Detector.candidate. now rewrite Ea1, Ea2, Eb1, Eb2.
Qed.

Lemma mechanical_kind (a a' b b' : Body) :
  bodyKind a = bodyKind a' -> bodyKind b = bodyKind b' ->
  Detector.mechanical a b = Detector.mechanical a' b'.
Proof.
  intros Ha Hb. unfold Detector.mechanical.
  rewrite (candidate_kind a a' b b' Ha Hb).
  destruct (bodyKind_fields _ _ Ha) as (_ & _ & -> & _).
  destruct (bodyKind_fields _ _ Hb) as (_ & _ & -> & _). reflexivity.
Qed.

Lemma goalSide_kind (a a' b b' : Body) :
  bodyKind a = bodyKind a' -> bodyKind b = bodyKind b' ->
  goalSide (a, b) = goalSide (a', b').
Proof.
  intros Ha Hb.
  destruct (bodyKind_fields _ _ Ha) as (Ea & _).
  destruct (bodyKind_fields _ _ Hb) as (Eb & _).
  unfold goalSide. now rewrite Ea, Eb.
Qed.

Lemma in_pairsOf (bs : list Body) (a b : Body) :
  In (a, b) (Detector.pairsOf bs) -> In a bs /\ In b bs.
Proof.
  induction bs as [|c bs IH]; simpl; [tauto|].
  rewrite in_app_iff, in_map_iff.
  intros [(b' & E & Hin)|Hin].
  - injection E as -> ->. tauto.
  - destruct (IH Hin). tauto.
Qed.

(** The handler calls its callback for a pair exactly when [goalSide]
    names a side, and then once, with that side. *)
Lemma dispatchPair_goalSide {S : Type} (onGoal : string -> S -> S)
    (st : S) (pair : Body * Body) :
  GameScene.dispatchPair onGoal st pair =
  match goalSide pair with
  | Some side => onGoal side st
  | None => st
  end.
Proof.
  destruct pair as [a b]. unfold GameScene.dispatchPair, goalSide.
  destruct (String.eqb_spec (label a) "puck") as [Ea|];
    destruct (String.eqb_spec (label b) "puck") as [Eb|];
    destruct (String.eqb_spec (label a) "goal_left") as [Fa|];
    destruct (String.eqb_spec (label b) "goal_left") as [Fb|];
    destruct (String.eqb_spec (label a) "goal_right") as [Ga|];
    destruct (String.eqb_spec (label b) "goal_right") as [Gb|];
    simpl; try reflexivity; congruence.
Qed.

Lemma dispatch_calls (pairs : list (Body * Body)) (acc : list string) :
  GameScene.dispatch (fun side calls => (calls ++ [side])%list) pairs acc
  = (acc ++ omap goalSide pairs)%list.
Proof.
  unfold GameScene.dispatch. revert acc.
  induction pairs as [|pair pairs IH]; intros acc; simpl.
  - now rewrite app_nil_r.
  - rewrite IH, dispatchPair_goalSide.
    destruct (goalSide pair); simpl; [|reflexivity].
    now rewrite <- app_assoc.
Qed.

Lemma dispatch_no_goal {S : Type} (onGoal : string -> S -> S)
    (pairs : list (Body * Body)) (st : S) :
  (forall pair, In pair pairs -> goalSide pair = None) ->
  GameScene.dispatch onGoal pairs st = st.
Proof.
  unfold GameScene.dispatch. revert st.
  induction pairs as [|pair pairs IH]; intros st Hnone; [reflexivity|].
  simpl. rewrite dispatchPair_goalSide, (Hnone pair) by now left.
  apply IH. intros p Hp. apply Hnone. now right.
Qed.

Lemma classOf_kind (a a' : Body) :
  bodyKind a = bodyKind a' -> classOf a = classOf a'.
Proof.
  intros Ha. destruct (bodyKind_fields _ _ Ha) as (E & _).
  unfold classOf. now rewrite E.
Qed.

Lemma puckAtBounds_kind (a a' b b' : Body) :
  bodyKind a = bodyKind a' -> bodyKind b = bodyKind b' ->
  puckAtBounds a b = puckAtBounds a' b'.
Proof.
  intros Ha Hb.
  destruct (bodyKind_fields _ _ Ha) as (Ea & _).
  destruct (bodyKind_fields _ _ Hb) as (Eb & _).
  unfold puckAtBounds. now rewrite Ea, Eb.
Qed.

Lemma created_bodies (s0 : GameScene.t) :
  GameScene.create = Some s0 ->
  forallb (fun a =>
    forallb (fun b =>
      Bool.eqb (Detector.mechanical a b)
               (listedPair (classOf a) (classOf b) && negb (puckAtBounds a b))
      && (match goalSide (a, b) with
          | Some _ => negb (Detector.candidate a b)
          | None => true
          end))
      (bodies (GameScene.world s0)))
    (bodies (GameScene.world s0)) = true.
Proof.
  intros H. vm_compute in H. injection H as <-. vm_compute. reflexivity.
Qed.

(** In any world holding the bodies the scene was created with, whatever
    their positions and velocities. *)
Lemma bodies_pairwise (s0 : GameScene.t) (w : World) (a b : Body) :
  GameScene.create = Some s0 ->
  map bodyKind (bodies w) = map bodyKind (bodies (GameScene.world s0)) ->
  In a (bodies w) -> In b (bodies w) ->
  Detector.mechanical a b =
    (listedPair (classOf a) (classOf b) && negb (puckAtBounds a b))
  /\ (goalSide (a, b) <> None -> Detector.candidate a b = false).
Proof.
  intros Hc Hk Ha Hb.
  destruct (kind_in_world _ _ a Hk Ha) as (a0 & Ha0 & Ea).
  destruct (kind_in_world _ _ b Hk Hb) as (b0 & Hb0 & Eb).
  pose proof (created_bodies s0 Hc) as Hall.
  rewrite forallb_forall in Hall. specialize (Hall a0 Ha0).
  rewrite forallb_forall in Hall. specialize (Hall b0 Hb0).
  apply andb_true_iff in Hall. destruct Hall as [H1 H2].
  apply Bool.eqb_prop in H1.
  rewrite <- (mechanical_kind a0 a b0 b Ea Eb).
  rewrite <- (candidate_kind a0 a b0 b Ea Eb).
  rewrite <- (goalSide_kind a0 a b0 b Ea Eb).
  rewrite <- (puckAtBounds_kind a0 a b0 b Ea Eb).
  rewrite <- (classOf_kind a0 a Ea), <- (classOf_kind b0 b Eb).
  split; [exact H1|].
  destruct (goalSide (a0, b0)); [|congruence].
  intros _. now apply negb_true_iff.
Qed.

Lemma canCollide_chain (f : CollisionFilter) :
  Detector.canCollide ChainSystem.filter f = false
  /\ Detector.canCollide f ChainSystem.filter = false.
Proof.
  unfold Detector.canCollide.
  change (group ChainSystem.filter) with 0.
  change (mask ChainSystem.filter) with 0.
  rewrite Z.land_0_l. split.
  - rewrite Z.eqb_refl. simpl. now rewrite andb_false_r.
  - destruct (Z.eqb_spec (group f) 0) as [->|Hne]; simpl;
      now rewrite ?andb_false_r.
Qed.

(** C10.  Among the bodies of the scene, in every state a run of the
    controller reaches and wherever the bodies are, a contact is resolved
    mechanically only for the class pairs puck-striker, puck-hammer,
    puck-wall, striker-wall and hammer-wall, and for every body pair of
    these classes but the puck against a world-bounds wall.  Striker and
    hammer masks are [PUCK | WALL], so strikers and hammers do not collide
    with one another, on one side or across sides; a chain link's mask is
    0, so a link collides with nothing, whatever the other filter. *)
Theorem only_listed_pairs_collide :
  (forall (s0 : GameScene.t) (es : list Event) (a b : Body),
      GameScene.create = Some s0 ->
      In a (bodies (GameScene.world (run es s0))) ->
      In b (bodies (GameScene.world (run es s0))) ->
      (Detector.mechanical a b = true ->
       listedPair (classOf a) (classOf b) = true)
      /\ (listedPair (classOf a) (classOf b) = true ->
          puckAtBounds a b = false -> Detector.mechanical a b = true))
  /\ (forall (s0 : GameScene.t) (w : World) (a b : Body),
        GameScene.create = Some s0 ->
        map bodyKind (bodies w) = map bodyKind (bodies (GameScene.world s0)) ->
        In a (bodies w) -> In b (bodies w) ->
        Detector.mechanical a b =
          (listedPair (classOf a) (classOf b) && negb (puckAtBounds a b)))
  /\ mask Striker.filter
     = Z.lor GameConfig.CATEGORY.PUCK GameConfig.CATEGORY.WALL
  /\ mask Hammer.filter
     = Z.lor GameConfig.CATEGORY.PUCK GameConfig.CATEGORY.WALL
  /\ mask ChainSystem.filter = 0
  /\ Detector.canCollide Striker.filter Striker.filter = false
  /\ Detector.canCollide Striker.filter Hammer.filter = false
  /\ Detector.canCollide Hammer.filter Striker.filter = false
  /\ Detector.canCollide Hammer.filter Hammer.filter = false
  /\ (forall f : CollisionFilter,
        Detector.canCollide ChainSystem.filter f = false
        /\ Detector.canCollide f ChainSystem.filter = false)
  /\ (forall (s0 : GameScene.t) (b : Body),
        GameScene.create = Some s0 ->
        In b (bodies (GameScene.world s0)) ->
        (classOf b = ChainLinkClass -> collisionFilter b = ChainSystem.filter)
        /\ (classOf b = StrikerClass -> collisionFilter b = Striker.filter)
        /\ (classOf b = HammerClass -> collisionFilter b = Hammer.filter)).
Proof.
  assert (Hany : forall (s0 : GameScene.t) (w : World) (a b : Body),
        GameScene.create = Some s0 ->
        map bodyKind (bodies w) = map bodyKind (bodies (GameScene.world s0)) ->
        In a (bodies w) -> In b (bodies w) ->
        Detector.mechanical a b =
          (listedPair (classOf a) (classOf b) && negb (puckAtBounds a b))).
  { intros s0 w a b Hc Hk Ha Hb.
    now destruct (bodies_pairwise s0 w a b Hc Hk Ha Hb) as [-> _]. }
  split.
  { intros s0 es a b Hc Ha Hb.
    rewrite (Hany s0 _ a b Hc (kinds_run es s0) Ha Hb). split.
    - intros H. apply andb_true_iff in H. exact (proj1 H).
    - intros -> ->. reflexivity. }
  split; [exact Hany|].
  do 7 (split; [reflexivity|]).
  split; [exact canCollide_chain|].
  intros s0 b Hc Hin.
  vm_compute in Hc. injection Hc as <-. simpl in Hin.
  repeat (destruct Hin as [<-|Hin];
          [repeat split; intros Hcl; first [reflexivity|discriminate Hcl]|]).
  destruct Hin.
Qed.

Lemma only_listed_pairs_collide_witness :
  exists s0 striker1 hammer2,
    GameScene.create = Some s0
    /\ bodies (GameScene.world s0)
         !! Striker.body (GameScene.striker1 (GameScene.objects s0))
       = Some striker1
    /\ bodies (GameScene.world s0)
         !! Hammer.body (GameScene.hammer2 (GameScene.objects s0))
       = Some hammer2
    /\ Detector.mechanical striker1 hammer2 = false.
Proof.
  do 3 eexists. split; [vm_compute; reflexivity|].
  match goal with
  | |- bodies (GameScene.world ?s) !! _ = _ /\ _ =>
      destruct only_listed_pairs_collide as (H & _);
      specialize (H s [])
  end.
  split; [vm_compute; reflexivity|]. split; [vm_compute; reflexivity|].
  match goal with
  | |- Detector.mechanical ?a ?b = false =>
      destruct (H a b) as [Hfwd _]
  end.
  - vm_compute. reflexivity.
  - apply list_elem_of_In, (list_elem_of_lookup_2 _ 13). vm_compute.
    reflexivity.
  - apply list_elem_of_In, (list_elem_of_lookup_2 _ 16). vm_compute.
    reflexivity.
  - match goal with
    | |- ?m = false => destruct m eqn:E; [|reflexivity]
    end.
    specialize (Hfwd eq_refl). vm_compute in Hfwd. discriminate Hfwd.
Defined.

Lemma omap_all_None {A B : Type} (f : A -> option B) (l : list A) :
  (forall a, In a l -> f a = None) -> omap f l = [].
Proof.
  induction l as [|a l IH]; intros H; [reflexivity|].
  simpl. rewrite (H a) by now left. apply IH. intros b Hb. apply H. now right.
Qed.

Lemma collisions_no_goal (s0 : GameScene.t) (w : World)
    (touching : Body -> Body -> bool) (pair : Body * Body) :
  GameScene.create = Some s0 ->
  map bodyKind (bodies w) = map bodyKind (bodies (GameScene.world s0)) ->
  In pair (Detector.collisions touching w) -> goalSide pair = None.
Proof.
  intros Hc Hk Hin. unfold Detector.collisions in Hin.
  apply filter_In in Hin. destruct Hin as [Hin Hcand].
  destruct pair as [a b]. simpl in Hcand.
  apply andb_true_iff in Hcand. destruct Hcand as [Hcand _].
  destruct (in_pairsOf _ _ _ Hin) as [Ha Hb].
  destruct (bodies_pairwise s0 w a b Hc Hk Ha Hb) as [_ Hno].
  destruct (goalSide (a, b)) eqn:E; [|reflexivity].
  rewrite Hno in Hcand by discriminate. discriminate Hcand.
Qed.

(** C1.  The handler itself is right: for each contact pair made of the
    puck and a goal sensor, in either order, it calls [onGoalScored] once
    with that goal's side, and for no other pair.  But no such pair ever
    reaches it.  The puck is created with mask [STRIKER | HAMMER | WALL],
    which leaves out the goals' category, so the filter rejects the pair
    puck/goal although the goal's mask names the puck; with [GOAL] added
    to the puck's mask the pair would be admitted.  Hence in any world
    holding the created bodies, wherever they are and whatever overlaps
    the narrow phase reports, the contact pairs make the handler call
    [onGoalScored] not at all and leave the scene as it is.  Evaluated on
    the created scene with the puck moved onto the centre of the left
    goal sensor and every pair reported as touching: no call, score 0-0. *)
Theorem puck_goal_contact_is_filtered_out :
  (forall pairs, GameScene.goalCalls pairs = omap goalSide pairs)
  /\ (forall (a b : Body) (side : string),
        label a = "puck" ->
        (side = "left" \/ side = "right") -> label b = "goal_" ++ side ->
        GameScene.goalCalls [(a, b)] = [side]
        /\ GameScene.goalCalls [(b, a)] = [side])
  /\ Detector.canCollide Puck.filter Goal.filter = false
  /\ Detector.canCollide Goal.filter Puck.filter = false
  /\ Z.land (mask Goal.filter) (category Puck.filter) <> 0
  /\ Z.land (mask Puck.filter) (category Goal.filter) = 0
  /\ Detector.canCollide puckFilterWithGoal Goal.filter = true
  /\ (forall (s0 : GameScene.t) (w : World) (touching : Body -> Body -> bool),
        GameScene.create = Some s0 ->
        map bodyKind (bodies w) = map bodyKind (bodies (GameScene.world s0)) ->
        GameScene.goalCalls (Detector.collisions touching w) = []
        /\ forall s : GameScene.t,
             GameScene.collisionstart (Detector.collisions touching w) s = s)
  /\ exists (s0 : GameScene.t) (w : World),
       GameScene.create = Some s0
       /\ w = Matter.setPosition
                (Puck.body (GameScene.puck (GameScene.objects s0)))
                (Vector.mk (Goal.x (GameScene.goalLeft (GameScene.objects s0)))
                           (Goal.y (GameScene.goalLeft (GameScene.objects s0))))
                (GameScene.world s0)
       /\ Puck.getPosition (GameScene.puck (GameScene.objects s0)) w
          = Matter.positionOf
              (Goal.body (GameScene.goalLeft (GameScene.objects s0))) w
       /\ GameScene.goalCalls (Detector.collisions (fun _ _ => true) w) = []
       /\ totalScore
            (run [CollisionStart (Detector.collisions (fun _ _ => true) w)]
                 (GameScene.set_world w s0)) = 0.
Proof.
  assert (Hcalls : forall pairs, GameScene.goalCalls pairs = omap goalSide pairs).
  { intros pairs. unfold GameScene.goalCalls. now rewrite dispatch_calls. }
  split; [exact Hcalls|]. split.
  { intros a b side Ha Hside Hb. rewrite !Hcalls. simpl.
    rewrite Ha, Hb. destruct Hside as [-> | ->]; split; reflexivity. }
  do 5 (split; [vm_compute; congruence|]).
  assert (Hgen : forall (s0 : GameScene.t) (w : World)
                        (touching : Body -> Body -> bool),
        GameScene.create = Some s0 ->
        map bodyKind (bodies w) = map bodyKind (bodies (GameScene.world s0)) ->
        GameScene.goalCalls (Detector.collisions touching w) = []
        /\ forall s : GameScene.t,
             GameScene.collisionstart (Detector.collisions touching w) s = s).
  { intros s0 w touching Hc Hk.
    pose proof (collisions_no_goal s0 w touching) as Hno. split.
    - rewrite Hcalls. apply omap_all_None. intros p Hp. now apply Hno.
    - intros s. apply dispatch_no_goal. intros p Hp. now apply Hno. }
  split; [exact Hgen|].
  do 2 eexists. split; [vm_compute; reflexivity|].
  split; [reflexivity|]. split; [vm_compute; reflexivity|].
  match goal with
  | |- GameScene.goalCalls (Detector.collisions _ ?w) = []
       /\ totalScore (run _ (GameScene.set_world _ ?s0)) = 0 =>
      destruct (Hgen s0 w (fun _ _ => true)) as [H1 H2]
  end.
  - vm_compute. reflexivity.
  - apply kinds_setPosition.
  - split; [exact H1|].
    match goal with
    | |- totalScore (run [CollisionStart ?ps] ?s) = 0 =>
        change (totalScore (GameScene.collisionstart ps s) = 0)
    end.
    rewrite H2. reflexivity.
Qed.

(** ** The striker without input *)

Lemma positionOf_Hammer_update_ne (m : Hammer.t) (h : nat) (w : World) :
  Hammer.body m <> h ->
  Matter.positionOf h (Hammer.update m w) = Matter.positionOf h w.
Proof.
  intros Hne. unfold Hammer.update.
  destruct (Matter.positionOf (Hammer.body m) w); [|reflexivity].
  repeat match goal with
    | |- context [if ?c then _ else _] => destruct c
    end; simpl; try reflexivity; now apply positionOf_setPosition_ne.
Qed.

Lemma create_objects (s0 : GameScene.t) :
  GameScene.create = Some s0 ->
  Striker.body (GameScene.striker1 (GameScene.objects s0)) = 13%nat
  /\ Hammer.body (GameScene.hammer1 (GameScene.objects s0)) = 14%nat
  /\ Striker.body (GameScene.striker2 (GameScene.objects s0)) = 15%nat
  /\ Hammer.body (GameScene.hammer2 (GameScene.objects s0)) = 16%nat.
Proof.
  intros H. vm_compute in H. injection H as <-. vm_compute. repeat split.
Qed.

Lemma create_striker_bodies (s0 : GameScene.t) :
  GameScene.create = Some s0 ->
  (exists b1 b2,
      bodies (GameScene.world s0)
        !! Striker.body (GameScene.striker1 (GameScene.objects s0)) = Some b1
      /\ bodies (GameScene.world s0)
        !! Striker.body (GameScene.striker2 (GameScene.objects s0)) = Some b2
      /\ isStatic b1 = false /\ isStatic b2 = false)
  /\ (exists c1 c2,
      head (ChainSystem.constraints (GameScene.chain1 (GameScene.objects s0)))
        = Some c1
      /\ head (ChainSystem.constraints (GameScene.chain2 (GameScene.objects s0)))
        = Some c2
      /\ Constraint.bodyA c1
         = Some (Striker.body (GameScene.striker1 (GameScene.objects s0)))
      /\ Constraint.bodyA c2
         = Some (Striker.body (GameScene.striker2 (GameScene.objects s0)))
      /\ In c1 (constraints (GameScene.world s0))
      /\ In c2 (constraints (GameScene.world s0))).
Proof.
  intros H. vm_compute in H. injection H as <-. split.
  - do 2 eexists. vm_compute. repeat split.
  - do 2 eexists. split; [vm_compute; reflexivity|].
    split; [vm_compute; reflexivity|].
    split; [reflexivity|]. split; [reflexivity|].
    split; vm_compute; auto 30.
Qed.

Lemma update_world (s : GameScene.t) (p1Input p2Input : Input.t) :
  GameScene.world (GameScene.update p1Input p2Input s) =
  if GameScene.gameOver s then GameScene.world s
  else
    let ob := GameScene.objects s in
    let w1 := if Input.active p1Input
              then Striker.setPosition (GameScene.striker1 ob)
                     (Input.x p1Input) (Input.y p1Input) (GameScene.world s)
              else GameScene.world s in
    let w2 := if Input.active p2Input
              then Striker.setPosition (GameScene.striker2 ob)
                     (Input.x p2Input) (Input.y p2Input) w1
              else w1 in
    Hammer.update (GameScene.hammer2 ob)
      (Hammer.update (GameScene.hammer1 ob) w2).
Proof.
  unfold GameScene.update.
  destruct s as [p1 p2 gt go gd wn wd te st tt dc pr ob].
  simpl. destruct go; [reflexivity|].
  destruct (gd >? 0), (Input.active p1Input), (Input.active p2Input);
    reflexivity.
Qed.

Lemma update_idle_strikers (s0 s : GameScene.t) (p1Input p2Input : Input.t) :
  GameScene.create = Some s0 ->
  GameScene.objects s = GameScene.objects s0 ->
  (Input.active p1Input = false ->
   strikerPosition 1 (GameScene.update p1Input p2Input s) = strikerPosition 1 s)
  /\ (Input.active p2Input = false ->
      strikerPosition 2 (GameScene.update p1Input p2Input s)
      = strikerPosition 2 s).
Proof.
  intros Hc Ho. destruct (create_objects s0 Hc) as (E1 & E2 & E3 & E4).
  rewrite <- Ho in E1, E2, E3, E4.
  assert (Hob : GameScene.objects (GameScene.update p1Input p2Input s)
                = GameScene.objects s) by apply update_frame.
  unfold strikerPosition, Striker.getPosition. simpl Z.eqb. cbv iota.
  rewrite Hob, update_world.
  destruct (GameScene.gameOver s); [split; reflexivity|]. cbv zeta.
  split; intros ->.
  - rewrite !positionOf_Hammer_update_ne by congruence.
    destruct (Input.active p2Input); [|reflexivity].
    unfold Striker.setPosition. apply positionOf_setPosition_ne. congruence.
  - rewrite !positionOf_Hammer_update_ne by congruence.
    destruct (Input.active p1Input); [|reflexivity].
    unfold Striker.setPosition. apply positionOf_setPosition_ne. congruence.
Qed.

(** C8, as the code has it.  With the sample inactive, [update] writes no
    position for that player's striker: across [update] the striker's
    position is unchanged, and at the end of a frame it is exactly where
    the adapter's physics step has put it.  The controller does not pin
    the striker: its body is created dynamic (not static) and is the first
    endpoint of the chain's first constraint. *)
Theorem update_leaves_idle_striker
    (s0 s : GameScene.t) (p1Input p2Input : Input.t) :
  GameScene.create = Some s0 ->
  GameScene.objects s = GameScene.objects s0 ->
  (Input.active p1Input = false ->
   strikerPosition 1 (GameScene.update p1Input p2Input s) = strikerPosition 1 s)
  /\ (Input.active p2Input = false ->
      strikerPosition 2 (GameScene.update p1Input p2Input s)
      = strikerPosition 2 s)
  /\ (forall (physics : World -> option World) (s' : GameScene.t),
        frame physics p1Input p2Input s = Some s' ->
        exists w', physics (GameScene.world s) = Some w'
          /\ (Input.active p1Input = false ->
              strikerPosition 1 s'
              = Striker.getPosition
                  (GameScene.striker1 (GameScene.objects s0)) w')
          /\ (Input.active p2Input = false ->
              strikerPosition 2 s'
              = Striker.getPosition
                  (GameScene.striker2 (GameScene.objects s0)) w'))
  /\ (exists b1 b2,
        bodies (GameScene.world s0)
          !! Striker.body (GameScene.striker1 (GameScene.objects s0)) = Some b1
        /\ bodies (GameScene.world s0)
          !! Striker.body (GameScene.striker2 (GameScene.objects s0)) = Some b2
        /\ isStatic b1 = false /\ isStatic b2 = false)
  /\ (exists c1 c2,
        head (ChainSystem.constraints (GameScene.chain1 (GameScene.objects s0)))
          = Some c1
        /\ head (ChainSystem.constraints (GameScene.chain2 (GameScene.objects s0)))
          = Some c2
        /\ Constraint.bodyA c1
           = Some (Striker.body (GameScene.striker1 (GameScene.objects s0)))
        /\ Constraint.bodyA c2
           = Some (Striker.body (GameScene.striker2 (GameScene.objects s0)))
        /\ In c1 (constraints (GameScene.world s0))
        /\ In c2 (constraints (GameScene.world s0))).
Proof.
  intros Hc Ho.
  destruct (update_idle_strikers s0 s p1Input p2Input Hc Ho) as [H1 H2].
  split; [exact H1|]. split; [exact H2|].
  split; [|exact (create_striker_bodies s0 Hc)].
  intros physics s' Hf. unfold frame in Hf.
  destruct (physics (GameScene.world s)) as [w'|]; [|discriminate Hf].
  injection Hf as <-. exists w'. split; [reflexivity|].
  assert (Ho' : GameScene.objects (GameScene.set_world w' s)
                = GameScene.objects s0) by (destruct s; exact Ho).
  destruct (update_idle_strikers s0 _ p1Input p2Input Hc Ho') as [G1 G2].
  split; intros Hi.
  - rewrite (G1 Hi). unfold strikerPosition. rewrite Ho'.
    destruct s; reflexivity.
  - rewrite (G2 Hi). unfold strikerPosition. rewrite Ho'.
    destruct s; reflexivity.
Qed.

Lemma update_leaves_idle_striker_witness :
  exists s0, GameScene.create = Some s0
    /\ strikerPosition 1 (GameScene.update Input.none Input.none s0)
       = strikerPosition 1 s0.
Proof.
  eexists. split; [vm_compute; reflexivity|].
  match goal with
  | |- strikerPosition 1 (GameScene.update _ _ ?s0) = _ =>
      destruct (update_leaves_idle_striker s0 s0 Input.none Input.none)
        as (H & _)
  end.
  - vm_compute. reflexivity.
  - reflexivity.
  - apply H. reflexivity.
Defined.

(** C8, as the spec has it, fails.  On the created scene, one frame with
    both samples inactive: the first constraint of player 1's chain has
    rest length 20 while striker and first link are 100/9 apart, so the
    adapter's constraint pass pushes the striker, a dynamic body, from
    x = 900 to x = 413044/459; [update] does not bring it back. *)
Lemma idle_striker_is_moved :
  exists s0 s1 : GameScene.t,
    GameScene.create = Some s0
    /\ Input.active Input.none = false
    /\ frame Engine.solveAll Input.none Input.none s0 = Some s1
    /\ strikerPosition 1 s0 = Some (Vector.mk 900 350)
    /\ strikerPosition 1 s1 = Some (Vector.mk (413044 # 459) 350)
    /\ ~ (413044 # 459 == 900)%Q
    /\ strikerPosition 1 s1 <> strikerPosition 1 s0.
Proof.
  do 2 eexists. split; [vm_compute; reflexivity|].
  split; [reflexivity|]. split; [vm_compute; reflexivity|].
  split; [vm_compute; reflexivity|]. split; [vm_compute; reflexivity|].
  split; [intros H; vm_compute in H; discriminate H|].
  vm_compute. intros H. discriminate H.
Qed.

(** * Further properties *)

(** ** Hammer.update *)

Lemma Qltb_lt (a b : Q) : Qltb a b = true <-> (a < b)%Q.
Proof.
  unfold Qltb. rewrite negb_true_iff. split.
  - intros H. apply Qnot_le_lt. intros Hle.
    apply Qle_bool_iff in Hle. congruence.
  - intros H. destruct (Qle_bool b a) eqn:E; [|reflexivity].
    apply Qle_bool_iff in E. lra.
Qed.

Lemma Qltb_ge (a b : Q) : Qltb a b = false <-> (b <= a)%Q.
Proof.
  unfold Qltb. rewrite negb_false_iff. apply Qle_bool_iff.
Qed.

Lemma hammer_new_band (px py : Q) (player : Z) (w0 : World) :
  let m := fst (Hammer.new px py player w0) in
  let R := GameConfig.HAMMER.RADIUS in
  Hammer.minY m = R
  /\ Hammer.maxY m = (GameConfig.GAME_HEIGHT - R)%Q
  /\ (player = 1 ->
      Hammer.minX m = (GameConfig.CENTER_LINE_X + R)%Q
      /\ Hammer.maxX m = (GameConfig.GAME_WIDTH - R)%Q)
  /\ (player <> 1 ->
      Hammer.minX m = R
      /\ Hammer.maxX m = (GameConfig.CENTER_LINE_X - R)%Q)
  /\ (Hammer.minX m <= Hammer.maxX m)%Q
  /\ (Hammer.minY m <= Hammer.maxY m)%Q
  /\ Hammer.body m = length (bodies w0).
Proof.
  unfold Hammer.new. destruct (Z.eqb_spec player 1) as [->|Hne]; simpl;
    repeat split; intros; try congruence; discriminate.
Qed.

(** The position [Hammer.update] leaves the body at. *)
Lemma Hammer_update_position (m : Hammer.t) (w : World) (pos : Vector.t) :
  (Hammer.minX m <= Hammer.maxX m)%Q -> (Hammer.minY m <= Hammer.maxY m)%Q ->
  Hammer.getPosition m w = Some pos ->
  exists p',
    Hammer.getPosition m (Hammer.update m w) = Some p'
    /\ inHammerBand m p'
    /\ ((Vector.x pos < Hammer.minX m)%Q -> Vector.x p' = Hammer.minX m)
    /\ ((Hammer.maxX m < Vector.x pos)%Q -> Vector.x p' = Hammer.maxX m)
    /\ ((Hammer.minX m <= Vector.x pos <= Hammer.maxX m)%Q ->
        Vector.x p' = Vector.x pos)
    /\ ((Vector.y pos < Hammer.minY m)%Q -> Vector.y p' = Hammer.minY m)
    /\ ((Hammer.maxY m < Vector.y pos)%Q -> Vector.y p' = Hammer.maxY m)
    /\ ((Hammer.minY m <= Vector.y pos <= Hammer.maxY m)%Q ->
        Vector.y p' = Vector.y pos)
    /\ (inHammerBand m pos -> Hammer.update m w = w).
Proof.
  intros HX HY Hpos. unfold Hammer.getPosition in *. unfold Hammer.update.
  rewrite Hpos.
  assert (Hlive : (Hammer.body m < length (bodies w))%nat).
  { unfold Matter.positionOf in Hpos.
    destruct (bodies w !! Hammer.body m) eqn:E; [|discriminate Hpos].
    now apply lookup_lt_Some in E. }
  unfold inHammerBand.
  destruct (Qltb (Vector.x pos) (Hammer.minX m)) eqn:Ex1;
    [apply Qltb_lt in Ex1|apply Qltb_ge in Ex1;
     destruct (Qltb (Hammer.maxX m) (Vector.x pos)) eqn:Ex2;
     [apply Qltb_lt in Ex2|apply Qltb_ge in Ex2]];
  (destruct (Qltb (Vector.y pos) (Hammer.minY m)) eqn:Ey1;
    [apply Qltb_lt in Ey1|apply Qltb_ge in Ey1;
     destruct (Qltb (Hammer.maxY m) (Vector.y pos)) eqn:Ey2;
     [apply Qltb_lt in Ey2|apply Qltb_ge in Ey2]]);
  cbn [orb];
  try (rewrite positionOf_setPosition by exact Hlive);
  eexists; (split; [first [reflexivity|exact Hpos]|]); cbn [Vector.x Vector.y];
  repeat split; intros; try reflexivity; try lra.
Qed.

(** X1 (Hammer.update).  A hammer made by the constructor is, after
    [update], inside its band whatever its position was: player 1 in
    [CENTER_LINE_X + RADIUS, GAME_WIDTH - RADIUS], any other player in
    [RADIUS, CENTER_LINE_X - RADIUS], both in
    [RADIUS, GAME_HEIGHT - RADIUS] vertically.  A coordinate outside the
    band is put on the nearest boundary, one inside is kept, and a hammer
    already inside leaves the world untouched. *)
Theorem Hammer_update_clamps_into_band
    (px py : Q) (player : Z) (w0 w : World) (pos : Vector.t) :
  let m := fst (Hammer.new px py player w0) in
  let R := GameConfig.HAMMER.RADIUS in
  Hammer.getPosition m w = Some pos ->
  exists p',
    Hammer.getPosition m (Hammer.update m w) = Some p'
    /\ (player = 1 ->
        (GameConfig.CENTER_LINE_X + R <= Vector.x p'
         <= GameConfig.GAME_WIDTH - R)%Q)
    /\ (player <> 1 ->
        (R <= Vector.x p' <= GameConfig.CENTER_LINE_X - R)%Q)
    /\ (R <= Vector.y p' <= GameConfig.GAME_HEIGHT - R)%Q
    /\ ((Vector.x pos < Hammer.minX m)%Q -> Vector.x p' = Hammer.minX m)
    /\ ((Hammer.maxX m < Vector.x pos)%Q -> Vector.x p' = Hammer.maxX m)
    /\ ((Hammer.minX m <= Vector.x pos <= Hammer.maxX m)%Q ->
        Vector.x p' = Vector.x pos)
    /\ ((Vector.y pos < Hammer.minY m)%Q -> Vector.y p' = Hammer.minY m)
    /\ ((Hammer.maxY m < Vector.y pos)%Q -> Vector.y p' = Hammer.maxY m)
    /\ ((Hammer.minY m <= Vector.y pos <= Hammer.maxY m)%Q ->
        Vector.y p' = Vector.y pos)
    /\ (inHammerBand m pos -> Hammer.update m w = w).
Proof.
  intros m R Hpos.
  destruct (hammer_new_band px py player w0)
    as (EminY & EmaxY & H1 & H2 & HX & HY & _).
  fold m in EminY, EmaxY, H1, H2, HX, HY. fold R in EminY, EmaxY, H1, H2.
  destruct (Hammer_update_position m w pos HX HY Hpos)
    as (p' & Hp' & [Bx By] & Hx1 & Hx2 & Hx3 & Hy1 & Hy2 & Hy3 & Hid).
  exists p'. split; [exact Hp'|].
  split; [intros E; destruct (H1 E) as [<- <-]; exact Bx|].
  split; [intros E; destruct (H2 E) as [<- <-]; exact Bx|].
  split; [rewrite <- EmaxY, <- EminY; exact By|].
  repeat split; assumption.
Qed.

Lemma Hammer_update_clamps_into_band_witness :
  exists p',
    Hammer.getPosition (fst (Hammer.new 1000 350 1 emptyWorld))
      (Hammer.update (fst (Hammer.new 1000 350 1 emptyWorld))
         (Matter.setPosition 0 (Vector.mk 2000 (-7))
            (snd (Hammer.new 1000 350 1 emptyWorld)))) = Some p'
    /\ Vector.x p' = 1165%Q /\ Vector.y p' = 35%Q.
Proof.
  destruct (Hammer_update_clamps_into_band 1000 350 1 emptyWorld
              (Matter.setPosition 0 (Vector.mk 2000 (-7))
                 (snd (Hammer.new 1000 350 1 emptyWorld)))
              (Vector.mk 2000 (-7)))
    as (p' & Hp & _ & _ & _ & _ & Hx & _ & Hy & _).
  - reflexivity.
  - exists p'. split; [exact Hp|]. split.
    + rewrite Hx by reflexivity. reflexivity.
    + rewrite Hy by reflexivity. reflexivity.
Defined.

Lemma lookup_updateBody_ne (h h' : nat) (f : Body -> Body) (w : World) :
  h <> h' -> bodies (Matter.updateBody h f w) !! h' = bodies w !! h'.
Proof.
  intros Hne. unfold Matter.updateBody.
  destruct (bodies w !! h); [|reflexivity].
  simpl. now apply list_lookup_insert_ne.
Qed.

Lemma velocity_setPosition (h h' : nat) (p : Vector.t) (w : World) :
  (fun b => (velocity b, angularVelocity b))
    <$> bodies (Matter.setPosition h p w) !! h'
  = (fun b => (velocity b, angularVelocity b)) <$> bodies w !! h'.
Proof.
  unfold Matter.setPosition. destruct (Nat.eq_dec h h') as [<-|Hne].
  - destruct (bodies w !! h) as [b|] eqn:Hb.
    + rewrite (lookup_updateBody _ _ _ _ Hb). reflexivity.
    + unfold Matter.updateBody. rewrite Hb. now rewrite ?Hb.
  - now rewrite lookup_updateBody_ne.
Qed.

(** X2 (Hammer.update).  The boundary correction is a projection: a
    second [update] changes nothing.  It writes the hammer's position
    only: every other body is left as it is, and no body's velocity,
    angular velocity, label, mass or collision filter changes. *)
Theorem Hammer_update_is_local_projection
    (m : Hammer.t) (w : World) (pos : Vector.t) :
  (Hammer.minX m <= Hammer.maxX m)%Q -> (Hammer.minY m <= Hammer.maxY m)%Q ->
  Hammer.getPosition m w = Some pos ->
  Hammer.update m (Hammer.update m w) = Hammer.update m w
  /\ (forall h, h <> Hammer.body m ->
      bodies (Hammer.update m w) !! h = bodies w !! h)
  /\ (forall h,
      (fun b => (velocity b, angularVelocity b))
        <$> bodies (Hammer.update m w) !! h
      = (fun b => (velocity b, angularVelocity b)) <$> bodies w !! h)
  /\ map bodyKind (bodies (Hammer.update m w)) = map bodyKind (bodies w)
  /\ constraints (Hammer.update m w) = constraints w.
Proof.
  intros HX HY Hpos.
  destruct (Hammer_update_position m w pos HX HY Hpos)
    as (p' & Hp' & Hband & _).
  destruct (Hammer_update_position m _ p' HX HY Hp')
    as (_ & _ & _ & _ & _ & _ & _ & _ & _ & Hid).
  split; [exact (Hid Hband)|].
  assert (Hcases : Hammer.update m w = w
                   \/ exists p, Hammer.update m w
                                = Matter.setPosition (Hammer.body m) p w).
  { unfold Hammer.update. unfold Hammer.getPosition in Hpos. rewrite Hpos.
    repeat match goal with
      | |- context [if ?c then _ else _] => destruct c
      end; cbn [orb]; eauto. }
  split; [|split; [|split]].
  - intros h Hne. destruct Hcases as [->|[p ->]]; [reflexivity|].
    unfold Matter.setPosition. apply lookup_updateBody_ne. congruence.
  - intros h. destruct Hcases as [->|[p ->]]; [reflexivity|].
    apply velocity_setPosition.
  - apply kinds_Hammer_update.
  - destruct Hcases as [->|[p ->]]; [reflexivity|].
    unfold Matter.setPosition, Matter.updateBody.
    now destruct (bodies w !! Hammer.body m).
Qed.

Lemma Hammer_update_is_local_projection_witness :
  Hammer.update (fst (Hammer.new 1000 350 1 emptyWorld))
    (Hammer.update (fst (Hammer.new 1000 350 1 emptyWorld))
       (Matter.setPosition 0 (Vector.mk 2000 (-7))
          (snd (Hammer.new 1000 350 1 emptyWorld))))
  = Hammer.update (fst (Hammer.new 1000 350 1 emptyWorld))
      (Matter.setPosition 0 (Vector.mk 2000 (-7))
         (snd (Hammer.new 1000 350 1 emptyWorld))).
Proof.
  apply (Hammer_update_is_local_projection
           (fst (Hammer.new 1000 350 1 emptyWorld))
           (Matter.setPosition 0 (Vector.mk 2000 (-7))
              (snd (Hammer.new 1000 350 1 emptyWorld)))
           (Vector.mk 2000 (-7))).
  - vm_compute. discriminate.
  - vm_compute. discriminate.
  - reflexivity.
Defined.

(** ** The match state over a whole run *)

Lemma wellFormed_create (s0 : GameScene.t) :
  GameScene.create = Some s0 -> wellFormed s0.
Proof.
  intros H. vm_compute in H. injection H as <-.
  unfold wellFormed, GameConfig.MAX_GOALS, GameConfig.GOAL_DELAY_FRAMES,
    GameConfig.GAME_DURATION_SECONDS.
  cbn -[Z.le Z.lt]. repeat split; try lia; reflexivity.
Qed.

Ltac zcases :=
  repeat match goal with
    | |- context [?a >=? ?b] => destruct (Z.geb_spec a b)
    | |- context [?a >? ?b] => destruct (Z.gtb_spec a b)
    | |- context [?a <=? ?b] => destruct (Z.leb_spec a b)
    end.

Ltac wf_solve :=
  unfold wellFormed, GameConfig.MAX_GOALS, GameConfig.GOAL_DELAY_FRAMES,
    GameConfig.GAME_DURATION_SECONDS;
  cbn -[Z.le Z.lt showZ timeText Z.add Z.sub];
  repeat split; try lia; try reflexivity; try assumption; eauto.

(** The win check on a running scene that is well formed but for a score
    that may have just reached [MAX_GOALS] and a clock that may have just
    reached 0. *)
Lemma wellFormed_checkWinCondition (s : GameScene.t) :
  GameScene.gameOver s = false ->
  0 <= GameScene.player1Score s <= GameConfig.MAX_GOALS ->
  0 <= GameScene.player2Score s <= GameConfig.MAX_GOALS ->
  GameScene.player1Score s < GameConfig.MAX_GOALS
  \/ GameScene.player2Score s < GameConfig.MAX_GOALS ->
  0 <= GameScene.gameTime s <= GameConfig.GAME_DURATION_SECONDS ->
  0 <= GameScene.goalDelay s <= GameConfig.GOAL_DELAY_FRAMES ->
  GameScene.scoreText s
  = showZ (GameScene.player1Score s) ++ "  -  "
    ++ showZ (GameScene.player2Score s) ->
  GameScene.timerText s = timeText (GameScene.gameTime s) ->
  GameScene.winner s = None -> GameScene.delayedCalls s = [] ->
  GameScene.timerEvent s = Some true ->
  wellFormed (GameScene.checkWinCondition s).
Proof.
  destruct s as [p1 p2 gt go gd wn wd te st tt dc pr ob].
  cbn [GameScene.player1Score GameScene.player2Score GameScene.gameTime
       GameScene.gameOver GameScene.goalDelay GameScene.winner
       GameScene.timerEvent GameScene.scoreText GameScene.timerText
       GameScene.delayedCalls].
  unfold GameConfig.MAX_GOALS, GameConfig.GAME_DURATION_SECONDS,
    GameConfig.GOAL_DELAY_FRAMES.
  intros -> H1 H2 H12 Ht Hd -> -> -> -> ->.
  unfold GameScene.checkWinCondition.
  cbn [GameScene.player1Score GameScene.player2Score GameScene.gameTime
       GameScene.gameOver].
  unfold GameConfig.MAX_GOALS.
  zcases; wf_solve;
    try (exists 1; split; [reflexivity|left; split; [reflexivity|lia]]);
    try (exists 2; split; [reflexivity|right; left; split; [reflexivity|lia]]);
    try (exists 0; split; [reflexivity|right; right; repeat split; lia]).
Qed.

Ltac scene_proj :=
  cbn [GameScene.player1Score GameScene.player2Score GameScene.gameTime
       GameScene.gameOver GameScene.goalDelay GameScene.winner
       GameScene.world GameScene.timerEvent GameScene.scoreText
       GameScene.timerText GameScene.delayedCalls GameScene.puckResets
       GameScene.objects
       GameScene.set_player1Score GameScene.set_player2Score
       GameScene.set_gameTime GameScene.set_gameOver GameScene.set_goalDelay
       GameScene.set_winner GameScene.set_world GameScene.set_timerEvent
       GameScene.set_scoreText GameScene.set_timerText
       GameScene.set_delayedCalls GameScene.set_puckResets] in *.

Lemma updateTimer_running_eq (s : GameScene.t) :
  GameScene.gameOver s = false -> 1 < GameScene.gameTime s ->
  GameScene.updateTimer s
  = GameScene.set_timerText (timeText (GameScene.gameTime s - 1))
      (GameScene.set_gameTime (GameScene.gameTime s - 1) s).
Proof.
  destruct s as [p1 p2 gt go gd wn wd te st tt dc pr ob]. scene_proj.
  intros -> Hgt. unfold GameScene.updateTimer. scene_proj.
  destruct (Z.leb_spec (gt - 1) 0); [lia|]. reflexivity.
Qed.

Lemma updateTimer_expired_eq (s : GameScene.t) :
  GameScene.gameOver s = false -> GameScene.gameTime s <= 1 ->
  GameScene.updateTimer s
  = GameScene.checkWinCondition
      (GameScene.set_timerText (timeText 0) (GameScene.set_gameTime 0 s)).
Proof.
  destruct s as [p1 p2 gt go gd wn wd te st tt dc pr ob]. scene_proj.
  intros -> Hgt. unfold GameScene.updateTimer. scene_proj.
  destruct (Z.leb_spec (gt - 1) 0); [|lia].
  unfold GameScene.checkWinCondition, GameScene.endGame. scene_proj.
  repeat match goal with
    | |- context [if ?c then _ else _] => destruct c
    end; reflexivity.
Qed.

Lemma wellFormed_updateTimer (s : GameScene.t) :
  wellFormed s -> wellFormed (GameScene.updateTimer s).
Proof.
  intros Hwf. destruct (GameScene.gameOver s) eqn:Hgo.
  { now rewrite updateTimer_over. }
  destruct (Z.le_gt_cases (GameScene.gameTime s) 1) as [Hle|Hgt].
  - rewrite (updateTimer_expired_eq s Hgo Hle).
    unfold wellFormed in Hwf. rewrite Hgo in Hwf.
    destruct Hwf as (H1 & H2 & Ht & Hd & Hst & Htt & Hr).
    destruct Hr as (R1 & R2 & R3 & R4 & R5 & R6).
    apply wellFormed_checkWinCondition;
      destruct s as [p1 p2 gt go gd wn wd te st tt dc pr ob]; scene_proj;
      unfold GameConfig.GAME_DURATION_SECONDS in *;
      try assumption; try reflexivity; try lia.
  - rewrite (updateTimer_running_eq s Hgo) by lia.
    unfold wellFormed in *. rewrite Hgo in Hwf.
    destruct s as [p1 p2 gt go gd wn wd te st tt dc pr ob]. scene_proj.
    subst go. destruct Hwf as (H1 & H2 & Ht & Hd & Hst & Htt & Hr).
    repeat split; try tauto; try lia.
Qed.

Lemma wellFormed_update (p1Input p2Input : Input.t) (s : GameScene.t) :
  wellFormed s -> wellFormed (GameScene.update p1Input p2Input s).
Proof.
  intros Hwf. unfold GameScene.update.
  destruct s as [p1 p2 gt go gd wn wd te st tt dc pr ob].
  unfold wellFormed in *. scene_proj. destruct go; [exact Hwf|].
  destruct (Z.gtb_spec gd 0), (Input.active p1Input),
    (Input.active p2Input); scene_proj;
    repeat split; try tauto; try lia.
Qed.

Lemma wellFormed_onGoalScored (side : string) (s : GameScene.t) :
  wellFormed s -> wellFormed (GameScene.onGoalScored side s).
Proof.
  intros Hwf.
  destruct (GameScene.gameOver s) eqn:Hgo.
  { rewrite onGoalScored_guard by now right. exact Hwf. }
  destruct (Z.lt_ge_cases 0 (GameScene.goalDelay s)) as [Hd|Hd].
  { rewrite onGoalScored_guard by now left. exact Hwf. }
  rewrite onGoalScored_pass by assumption.
  unfold wellFormed in Hwf. rewrite Hgo in Hwf.
  destruct Hwf as (H1 & H2 & Ht & Hdl & Hst & Htt & Hr).
  destruct Hr as (R1 & R2 & R3 & R4 & R5 & R6).
  apply wellFormed_checkWinCondition; unfold scored, GameScene.updateScoreDisplay;
    destruct s as [p1 p2 gt go gd wn wd te st tt dc pr ob];
    destruct (String.eqb side "left"); scene_proj;
    unfold GameConfig.GOAL_DELAY_FRAMES, GameConfig.MAX_GOALS in *;
    try assumption; try reflexivity; try lia.
Qed.

Lemma wellFormed_handle (s : GameScene.t) (e : Event) :
  wellFormed s -> wellFormed (handle s e).
Proof.
  intros Hwf. destruct e as [pairs|side| |i1 i2]; simpl.
  - unfold GameScene.collisionstart, GameScene.dispatch. revert s Hwf.
    induction pairs as [|pair pairs IH]; intros s Hwf; [exact Hwf|].
    simpl. apply IH. rewrite dispatchPair_goalSide.
    destruct (goalSide pair); [now apply wellFormed_onGoalScored|exact Hwf].
  - now apply wellFormed_onGoalScored.
  - now apply wellFormed_updateTimer.
  - now apply wellFormed_update.
Qed.

Lemma wellFormed_run (es : list Event) (s : GameScene.t) :
  wellFormed s -> wellFormed (run es s).
Proof.
  unfold run. revert s. induction es as [|e es IH]; intros s Hwf; [exact Hwf|].
  simpl. apply IH. now apply wellFormed_handle.
Qed.

(** X3 (onGoalScored, updateTimer, update, checkWinCondition).  In every
    scene a run reaches from the created one the scores stay in
    [0, MAX_GOALS], the clock in [0, GAME_DURATION_SECONDS] and the goal
    delay in [0, GOAL_DELAY_FRAMES]; and while the game is running nobody
    has reached [MAX_GOALS] and there is time left. *)
Theorem match_state_stays_in_range (s0 : GameScene.t) (es : list Event) :
  GameScene.create = Some s0 ->
  let s := run es s0 in
  0 <= GameScene.player1Score s <= GameConfig.MAX_GOALS
  /\ 0 <= GameScene.player2Score s <= GameConfig.MAX_GOALS
  /\ 0 <= GameScene.gameTime s <= GameConfig.GAME_DURATION_SECONDS
  /\ 0 <= GameScene.goalDelay s <= GameConfig.GOAL_DELAY_FRAMES
  /\ (GameScene.gameOver s = false ->
      GameScene.player1Score s < GameConfig.MAX_GOALS
      /\ GameScene.player2Score s < GameConfig.MAX_GOALS
      /\ 0 < GameScene.gameTime s).
Proof.
  intros Hc s.
  pose proof (wellFormed_run es s0 (wellFormed_create s0 Hc)) as Hwf.
  fold s in Hwf. destruct Hwf as (H1 & H2 & Ht & Hd & _ & _ & Hr).
  split; [exact H1|]. split; [exact H2|]. split; [exact Ht|].
  split; [exact Hd|]. intros Hgo. rewrite Hgo in Hr. tauto.
Qed.

Lemma match_state_stays_in_range_witness :
  exists s0, GameScene.create = Some s0
    /\ 0 <= GameScene.goalDelay
              (run [GoalScored "left"; Update Input.none Input.none;
                    TimerTick] s0)
       <= GameConfig.GOAL_DELAY_FRAMES.
Proof.
  eexists. split; [vm_compute; reflexivity|].
  match goal with
  | |- _ <= GameScene.goalDelay (run ?es ?s0) <= _ =>
      destruct (match_state_stays_in_range s0 es) as (_ & _ & _ & H & _)
  end.
  - vm_compute. reflexivity.
  - exact H.
Defined.

(** X4 (checkWinCondition, endGame).  In every scene a run reaches from
    the created one, the recorded winner agrees with the scores: while the
    game runs there is none; once it is over the winner is 1 with a
    strictly higher score for player 1, or 2 with a strictly higher score
    for player 2, or 0 (tie) with equal scores and the clock at 0. *)
Theorem winner_agrees_with_scores (s0 : GameScene.t) (es : list Event) :
  GameScene.create = Some s0 ->
  let s := run es s0 in
  (GameScene.gameOver s = false -> GameScene.winner s = None)
  /\ (GameScene.gameOver s = true ->
      (GameScene.winner s = Some 1
       /\ GameScene.player2Score s < GameScene.player1Score s)
      \/ (GameScene.winner s = Some 2
          /\ GameScene.player1Score s < GameScene.player2Score s)
      \/ (GameScene.winner s = Some 0
          /\ GameScene.player1Score s = GameScene.player2Score s
          /\ GameScene.gameTime s = 0)).
Proof.
  intros Hc s.
  pose proof (wellFormed_run es s0 (wellFormed_create s0 Hc)) as Hwf.
  fold s in Hwf. destruct Hwf as (_ & _ & _ & _ & _ & _ & Hr).
  split; intros Hgo; rewrite Hgo in Hr; [tauto|].
  destruct Hr as (_ & _ & w & Hw & [[-> ?]|[[-> ?]|[-> ?]]]); tauto.
Qed.

Lemma winner_agrees_with_scores_witness :
  exists s0, GameScene.create = Some s0
    /\ GameScene.winner (run [GoalScored "right"; TimerTick] s0) = None.
Proof.
  eexists. split; [vm_compute; reflexivity|].
  match goal with
  | |- GameScene.winner (run ?es ?s0) = None =>
      destruct (winner_agrees_with_scores s0 es) as (H & _)
  end.
  - vm_compute. reflexivity.
  - apply H. vm_compute. reflexivity.
Defined.

(** X5 (endGame).  In every scene a run reaches from the created one, the
    game-over callback has been scheduled exactly once if the game is over
    and not at all otherwise, and the one-second timer is still scheduled
    exactly while the game runs. *)
Theorem game_over_is_signalled_once (s0 : GameScene.t) (es : list Event) :
  GameScene.create = Some s0 ->
  let s := run es s0 in
  GameScene.delayedCalls s
  = (if GameScene.gameOver s then [(1000, StartGameOverScene)] else [])
  /\ GameScene.timerEvent s = Some (negb (GameScene.gameOver s)).
Proof.
  intros Hc s.
  pose proof (wellFormed_run es s0 (wellFormed_create s0 Hc)) as Hwf.
  fold s in Hwf. destruct Hwf as (_ & _ & _ & _ & _ & _ & Hr).
  destruct (GameScene.gameOver s); simpl; tauto.
Qed.

Lemma game_over_is_signalled_once_witness :
  exists s0, GameScene.create = Some s0
    /\ GameScene.delayedCalls
         (run (repeat TimerTick 400) s0) = [(1000, StartGameOverScene)].
Proof.
  eexists. split; [vm_compute; reflexivity|].
  match goal with
  | |- GameScene.delayedCalls (run ?es ?s0) = _ =>
      destruct (game_over_is_signalled_once s0 es) as (H & _)
  end.
  - vm_compute. reflexivity.
  - rewrite H. vm_compute. reflexivity.
Defined.

Lemma string_length_app (a b : string) :
  String.length (a ++ b) = (String.length a + String.length b)%nat.
Proof. induction a as [|c a IH]; simpl; [reflexivity|now rewrite IH]. Qed.

Lemma pad2_length (z : Z) :
  0 <= z < 100 -> String.length (GameScene.pad2 z) = 2%nat.
Proof.
  intros Hz.
  assert (Hall : forallb (fun n => Nat.eqb (String.length
                                              (GameScene.pad2 (Z.of_nat n))) 2)
                         (seq 0 100) = true) by (vm_compute; reflexivity).
  rewrite forallb_forall in Hall.
  specialize (Hall (Z.to_nat z)). rewrite Z2Nat.id in Hall by lia.
  apply Nat.eqb_eq, Hall, in_seq. lia.
Qed.

(** X6 (updateScoreDisplay, updateTimer).  In every scene a run reaches
    from the created one, the score label shows the two scores and the
    timer label shows the clock as minutes and seconds, two digits each:
    five characters. *)
Theorem labels_show_the_state (s0 : GameScene.t) (es : list Event) :
  GameScene.create = Some s0 ->
  let s := run es s0 in
  GameScene.scoreText s
  = showZ (GameScene.player1Score s) ++ "  -  "
    ++ showZ (GameScene.player2Score s)
  /\ GameScene.timerText s
     = GameScene.pad2 (GameScene.gameTime s / 60) ++ ":"
       ++ GameScene.pad2 (Z.rem (GameScene.gameTime s) 60)
  /\ String.length (GameScene.timerText s) = 5%nat.
Proof.
  intros Hc s.
  pose proof (wellFormed_run es s0 (wellFormed_create s0 Hc)) as Hwf.
  fold s in Hwf. destruct Hwf as (_ & _ & Ht & _ & Hst & Htt & _).
  split; [exact Hst|]. split; [exact Htt|].
  rewrite Htt. unfold timeText. rewrite !string_length_app.
  unfold GameConfig.GAME_DURATION_SECONDS in Ht.
  rewrite !pad2_length; [reflexivity| |].
  - rewrite Z.rem_mod_nonneg by lia.
    pose proof (Z.mod_pos_bound (GameScene.gameTime s) 60). lia.
  - split; [apply Z.div_pos; lia|].
    apply Z.div_lt_upper_bound; lia.
Qed.

Lemma labels_show_the_state_witness :
  exists s0, GameScene.create = Some s0
    /\ GameScene.timerText (run [TimerTick; GoalScored "left"; TimerTick] s0)
       = "04:58"
    /\ GameScene.scoreText (run [TimerTick; GoalScored "left"; TimerTick] s0)
       = "0  -  1".
Proof.
  eexists. split; [vm_compute; reflexivity|].
  match goal with
  | |- GameScene.timerText (run ?es ?s0) = _ /\ _ =>
      destruct (labels_show_the_state s0 es) as (H1 & H2 & _)
  end.
  - vm_compute. reflexivity.
  - split; [rewrite H2|rewrite H1]; vm_compute; reflexivity.
Defined.

(** X7 (GameOverScene.init, GameOverScene.create, endGame).  When the
    game-over scene is started from a finished game reached from the
    created scene, its announcement agrees with the final scores it
    shows: 'Player 1 Wins!' with player 1 strictly ahead, 'Player 2 Wins!'
    with player 2 strictly ahead, 'Tie Game!' with equal scores. *)
Theorem game_over_scene_agrees_with_scores
    (s0 : GameScene.t) (es : list Event) :
  GameScene.create = Some s0 ->
  GameScene.gameOver (run es s0) = true ->
  let g := startGameOverScene (run es s0) in
  GameOverScene.player1Score g = GameScene.player1Score (run es s0)
  /\ GameOverScene.player2Score g = GameScene.player2Score (run es s0)
  /\ GameOverScene.finalScoreText g = GameScene.scoreText (run es s0)
  /\ ((GameOverScene.winnerText g = "Player 1 Wins!"
       /\ GameOverScene.player2Score g < GameOverScene.player1Score g)
      \/ (GameOverScene.winnerText g = "Player 2 Wins!"
          /\ GameOverScene.player1Score g < GameOverScene.player2Score g)
      \/ (GameOverScene.winnerText g = "Tie Game!"
          /\ GameOverScene.player1Score g = GameOverScene.player2Score g)).
Proof.
  intros Hc Hgo g.
  pose proof (wellFormed_run es s0 (wellFormed_create s0 Hc)) as Hwf.
  destruct Hwf as (_ & _ & _ & _ & Hst & _ & Hw). rewrite Hgo in Hw.
  destruct Hw as (_ & _ & w & Hw & Hcases).
  subst g. unfold startGameOverScene, GameScene.runCallback,
    GameOverScene.init, GameOverScene.winnerText,
    GameOverScene.finalScoreText.
  cbn [GameOverScene.winner GameOverScene.player1Score
       GameOverScene.player2Score].
  split; [reflexivity|]. split; [reflexivity|]. split; [now rewrite Hst|].
  rewrite Hw. destruct Hcases as [[-> ?]|[[-> ?]|[-> [? _]]]]; simpl; tauto.
Qed.

Lemma game_over_scene_agrees_with_scores_witness :
  exists s0, GameScene.create = Some s0
    /\ GameOverScene.winnerText
         (startGameOverScene (run (repeat TimerTick 300) s0)) = "Tie Game!".
Proof.
  eexists. split; [vm_compute; reflexivity|].
  match goal with
  | |- GameOverScene.winnerText (startGameOverScene (run ?es ?s0)) = _ =>
      destruct (game_over_scene_agrees_with_scores s0 es)
        as (_ & _ & _ & [[_ H]|[[_ H]|[H _]]])
  end.
  - vm_compute. reflexivity.
  - vm_compute. reflexivity.
  - vm_compute in H. discriminate H.
  - vm_compute in H. discriminate H.
  - exact H.
Defined.

(** ** Cooldown, clock and the collision handler *)

Lemma run_app (es1 es2 : list Event) (s : GameScene.t) :
  run (es1 ++ es2) s = run es2 (run es1 s).
Proof. unfold run. apply fold_left_app. Qed.

Lemma run_updates (inputs : list (Input.t * Input.t)) (s : GameScene.t) :
  GameScene.gameOver s = false ->
  Z.of_nat (length inputs) <= GameScene.goalDelay s ->
  let s' := run (updates inputs) s in
  GameScene.gameOver s' = false
  /\ GameScene.goalDelay s' = GameScene.goalDelay s - Z.of_nat (length inputs)
  /\ GameScene.player1Score s' = GameScene.player1Score s
  /\ GameScene.player2Score s' = GameScene.player2Score s
  /\ GameScene.gameTime s' = GameScene.gameTime s.
Proof.
  revert s. induction inputs as [|[i1 i2] inputs IH]; intros s Hgo Hlen.
  - cbn. repeat split; try assumption; lia.
  - cbn [updates map fst snd]. change (run (?e :: ?es) s) with (run es (handle s e)).
    cbn [handle].
    destruct (update_frame i1 i2 s)
      as (E1 & E2 & E3 & E4 & _ & _ & _ & _ & E9).
    rewrite Hgo in E4, E9. cbn [length] in Hlen.
    destruct (Z.gtb_spec (GameScene.goalDelay s) 0) as [Hpos|Hnp]; [|lia].
    destruct (IH (GameScene.update i1 i2 s)) as (F1 & F2 & F3 & F4 & F5).
    + exact E4.
    + rewrite E9. lia.
    + cbv zeta. fold (updates inputs).
      rewrite F1, F2, F3, F4, F5, E1, E2, E3, E9. cbn [length].
      repeat split; lia.
Qed.

(** X8 (onGoalScored, update).  The goal delay lasts exactly
    [GOAL_DELAY_FRAMES] frames: after a goal that leaves the game running
    and that many [update] calls, whatever the input samples, the delay is
    back at 0, and the next goal event scores again. *)
Theorem goal_delay_expires_after_its_frames
    (s : GameScene.t) (side : string) (inputs : list (Input.t * Input.t)) :
  GameScene.gameOver s = false -> GameScene.goalDelay s = 0 ->
  GameScene.gameOver (GameScene.onGoalScored side s) = false ->
  Z.of_nat (length inputs) = GameConfig.GOAL_DELAY_FRAMES ->
  let s1 := run (GoalScored side :: updates inputs) s in
  GameScene.gameOver s1 = false
  /\ GameScene.goalDelay s1 = 0
  /\ totalScore s1 = totalScore s + 1
  /\ forall side',
       totalScore (GameScene.onGoalScored side' s1) = totalScore s + 2.
Proof.
  intros Hgo Hgd Hgo1 Hlen. cbv zeta.
  change (run (GoalScored side :: updates inputs) s)
    with (run (updates inputs) (GameScene.onGoalScored side s)).
  destruct (onGoalScored_effect side s) as (_ & _ & _ & Et).
  assert (Hguard : (GameScene.goalDelay s >? 0) || GameScene.gameOver s = false).
  { rewrite Hgo, Hgd. reflexivity. }
  rewrite Hguard in Et.
  assert (Ed : GameScene.goalDelay (GameScene.onGoalScored side s)
               = GameConfig.GOAL_DELAY_FRAMES).
  { rewrite onGoalScored_pass by (lia || assumption).
    destruct (checkWinCondition_frame (scored side s))
      as (_ & _ & _ & -> & _).
    apply scored_fields. }
  destruct (run_updates inputs (GameScene.onGoalScored side s) Hgo1)
    as (F1 & F2 & F3 & F4 & _); [rewrite Ed; lia|].
  cbv zeta in F1, F2, F3, F4.
  assert (Etot : totalScore (run (updates inputs)
                               (GameScene.onGoalScored side s))
                 = totalScore s + 1).
  { unfold totalScore in *. rewrite F3, F4. exact Et. }
  split; [exact F1|]. split; [rewrite F2, Ed; lia|]. split; [exact Etot|].
  intros side'.
  destruct (onGoalScored_effect side'
              (run (updates inputs) (GameScene.onGoalScored side s)))
    as (_ & _ & _ & Et').
  rewrite Et', F1, F2, Ed, Etot.
  destruct (Z.gtb_spec (GameConfig.GOAL_DELAY_FRAMES - Z.of_nat (length inputs)) 0);
    [lia|]. simpl. lia.
Qed.

Lemma goal_delay_expires_after_its_frames_witness :
  exists s0, GameScene.create = Some s0
    /\ totalScore
         (GameScene.onGoalScored "right"
            (run (GoalScored "left"
                  :: updates (repeat (Input.none, Input.none) 60)) s0)) = 2.
Proof.
  eexists. split; [vm_compute; reflexivity|].
  match goal with
  | |- totalScore (GameScene.onGoalScored ?sd
                     (run (GoalScored ?side :: updates ?inputs) ?s0)) = _ =>
      destruct (goal_delay_expires_after_its_frames s0 side inputs)
        as (_ & _ & _ & H)
  end.
  - reflexivity.
  - reflexivity.
  - vm_compute. reflexivity.
  - vm_compute. reflexivity.
  - rewrite H. vm_compute. reflexivity.
Defined.

Lemma checkWinCondition_timeup (s : GameScene.t) :
  GameScene.gameOver s = false ->
  GameScene.player1Score s < GameConfig.MAX_GOALS ->
  GameScene.player2Score s < GameConfig.MAX_GOALS ->
  GameScene.gameTime s <= 0 ->
  GameScene.checkWinCondition s
  = GameScene.endGame
      (if GameScene.player1Score s >? GameScene.player2Score s then 1
       else if GameScene.player2Score s >? GameScene.player1Score s then 2
       else 0) s.
Proof.
  intros Hgo H1 H2 Ht. unfold GameScene.checkWinCondition. rewrite Hgo.
  destruct (Z.geb_spec (GameScene.player1Score s) GameConfig.MAX_GOALS);
    [lia|].
  destruct (Z.geb_spec (GameScene.player2Score s) GameConfig.MAX_GOALS);
    [lia|].
  destruct (Z.leb_spec (GameScene.gameTime s) 0); [|lia].
  destruct (GameScene.player1Score s >? GameScene.player2Score s);
    [reflexivity|].
  destruct (GameScene.player2Score s >? GameScene.player1Score s);
    reflexivity.
Qed.

Lemma run_ticks (k : nat) (s : GameScene.t) :
  GameScene.gameOver s = false -> Z.of_nat k < GameScene.gameTime s ->
  let s' := run (repeat TimerTick k) s in
  GameScene.gameOver s' = false
  /\ GameScene.gameTime s' = GameScene.gameTime s - Z.of_nat k
  /\ GameScene.player1Score s' = GameScene.player1Score s
  /\ GameScene.player2Score s' = GameScene.player2Score s
  /\ GameScene.timerText s' = (if (k =? 0)%nat then GameScene.timerText s
                              else timeText (GameScene.gameTime s - Z.of_nat k)).
Proof.
  induction k as [|k IH]; intros Hgo Hk.
  - cbn. repeat split; try assumption; lia.
  - cbv zeta. simpl repeat. rewrite repeat_cons, run_app.
    destruct IH as (F1 & F2 & F3 & F4 & _); [exact Hgo|lia|].
    cbv zeta in F1, F2, F3, F4.
    change (run [TimerTick] ?x) with (GameScene.updateTimer x).
    rewrite updateTimer_running_eq by (assumption || lia).
    set (s' := run (repeat TimerTick k) s) in *.
    rewrite F2. clearbody s'.
    destruct s' as [p1 p2 gt go gd wn wd te st tt dc pr ob].
    cbn in *. subst.
    replace (GameScene.gameTime s - Z.of_nat k - 1)
      with (GameScene.gameTime s - Z.pos (Pos.of_succ_nat k)) by lia.
    repeat split.
Qed.

(** X9 (updateTimer).  With no goal in between, a running game whose
    clock shows [t] keeps running through the first [t - 1] timer ticks,
    the clock going down by one each, and the [t]-th tick ends it with the
    clock at 0: for the player with the strictly higher score, or as a
    tie. *)
Theorem clock_runs_down_to_the_end (s : GameScene.t) :
  GameScene.gameOver s = false -> 0 < GameScene.gameTime s ->
  GameScene.player1Score s < GameConfig.MAX_GOALS ->
  GameScene.player2Score s < GameConfig.MAX_GOALS ->
  (forall k : nat, Z.of_nat k < GameScene.gameTime s ->
     GameScene.gameOver (run (repeat TimerTick k) s) = false
     /\ GameScene.gameTime (run (repeat TimerTick k) s)
        = GameScene.gameTime s - Z.of_nat k)
  /\ let s' := run (repeat TimerTick (Z.to_nat (GameScene.gameTime s))) s in
     GameScene.gameOver s' = true
     /\ GameScene.gameTime s' = 0
     /\ GameScene.player1Score s' = GameScene.player1Score s
     /\ GameScene.player2Score s' = GameScene.player2Score s
     /\ GameScene.winner s'
        = Some (if GameScene.player1Score s >? GameScene.player2Score s then 1
                else if GameScene.player2Score s >? GameScene.player1Score s
                then 2 else 0).
Proof.
  intros Hgo Ht H1 H2. split.
  { intros k Hk. destruct (run_ticks k s Hgo Hk) as (F1 & F2 & _).
    now split. }
  cbv zeta.
  destruct (Z.to_nat (GameScene.gameTime s)) as [|k] eqn:Ek; [lia|].
  simpl repeat. rewrite repeat_cons, run_app.
  destruct (run_ticks k s Hgo) as (F1 & F2 & F3 & F4 & _); [lia|].
  cbv zeta in F1, F2, F3, F4.
  change (run [TimerTick] ?x) with (GameScene.updateTimer x).
  set (s1 := run (repeat TimerTick k) s) in *.
  rewrite updateTimer_expired_eq by (assumption || lia).
  set (s2 := GameScene.set_timerText (timeText 0) (GameScene.set_gameTime 0 s1)).
  assert (G : GameScene.gameOver s2 = false
              /\ GameScene.gameTime s2 = 0
              /\ GameScene.player1Score s2 = GameScene.player1Score s
              /\ GameScene.player2Score s2 = GameScene.player2Score s).
  { subst s2. clearbody s1. destruct s1. cbn in *. tauto. }
  destruct G as (G1 & G2 & G3 & G4).
  rewrite checkWinCondition_timeup by (rewrite ?G3, ?G4; assumption || lia).
  rewrite endGame_eq. cbn. rewrite G2, G3, G4. repeat split.
Qed.

Lemma clock_runs_down_to_the_end_witness :
  exists s0, GameScene.create = Some s0
    /\ GameScene.winner
         (run (repeat TimerTick (Z.to_nat (GameScene.gameTime s0))) s0)
       = Some 0.
Proof.
  eexists. split; [vm_compute; reflexivity|].
  match goal with
  | |- GameScene.winner (run _ ?s0) = _ =>
      destruct (clock_runs_down_to_the_end s0) as (_ & _ & _ & _ & _ & H)
  end.
  - reflexivity.
  - reflexivity.
  - reflexivity.
  - reflexivity.
  - exact H.
Defined.

Lemma onGoalScored_closes_window (side : string) (s : GameScene.t) :
  0 < GameScene.goalDelay (GameScene.onGoalScored side s)
  \/ GameScene.gameOver (GameScene.onGoalScored side s) = true.
Proof.
  destruct (GameScene.gameOver s) eqn:Hgo.
  { right. rewrite onGoalScored_guard by now right. exact Hgo. }
  destruct (Z.lt_ge_cases 0 (GameScene.goalDelay s)) as [Hd|Hd].
  { left. rewrite onGoalScored_guard by now left. exact Hd. }
  left. rewrite onGoalScored_pass by assumption.
  destruct (checkWinCondition_frame (scored side s)) as (_ & _ & _ & -> & _).
  destruct (scored_fields side s) as (_ & _ & _ & -> & _). reflexivity.
Qed.

(** X10 (setupCollisions, onGoalScored).  One ['collisionstart'] event
    acts as a single [onGoalScored] call for the first puck/goal pair in
    it, whatever else the event holds; with no such pair it does nothing.
    So an event never scores more than once. *)
Theorem collisionstart_scores_first_pair_only
    (pairs : list (Body * Body)) (s : GameScene.t) :
  GameScene.collisionstart pairs s =
  match head (omap goalSide pairs) with
  | Some side => GameScene.onGoalScored side s
  | None => s
  end.
Proof.
  unfold GameScene.collisionstart, GameScene.dispatch. revert s.
  induction pairs as [|pair pairs IH]; intros s; [reflexivity|].
  simpl. rewrite dispatchPair_goalSide.
  destruct (goalSide pair) as [side|]; simpl; [|apply IH].
  apply (dispatch_guard pairs). 
  destruct (onGoalScored_closes_window side s); tauto.
Qed.

(** ** The frame's update on the created objects *)

Lemma create_players (s0 : GameScene.t) :
  GameScene.create = Some s0 ->
  let ob := GameScene.objects s0 in
  let Rs := GameConfig.STRIKER.RADIUS in
  let Rh := GameConfig.HAMMER.RADIUS in
  (Striker.body (GameScene.striker1 ob) = 13%nat
   /\ Hammer.body (GameScene.hammer1 ob) = 14%nat
   /\ Striker.body (GameScene.striker2 ob) = 15%nat
   /\ Hammer.body (GameScene.hammer2 ob) = 16%nat
   /\ length (bodies (GameScene.world s0)) = 33%nat)
  /\ (Striker.minX (GameScene.striker1 ob) = (GameConfig.CENTER_LINE_X + Rs)%Q
      /\ Striker.maxX (GameScene.striker1 ob) = (GameConfig.GAME_WIDTH - Rs)%Q
      /\ Striker.minX (GameScene.striker2 ob) = Rs
      /\ Striker.maxX (GameScene.striker2 ob) = (GameConfig.CENTER_LINE_X - Rs)%Q
      /\ Striker.minY (GameScene.striker1 ob) = Rs
      /\ Striker.maxY (GameScene.striker1 ob) = (GameConfig.GAME_HEIGHT - Rs)%Q
      /\ Striker.minY (GameScene.striker2 ob) = Rs
      /\ Striker.maxY (GameScene.striker2 ob) = (GameConfig.GAME_HEIGHT - Rs)%Q)
  /\ (Hammer.minX (GameScene.hammer1 ob) = (GameConfig.CENTER_LINE_X + Rh)%Q
      /\ Hammer.maxX (GameScene.hammer1 ob) = (GameConfig.GAME_WIDTH - Rh)%Q
      /\ Hammer.minX (GameScene.hammer2 ob) = Rh
      /\ Hammer.maxX (GameScene.hammer2 ob) = (GameConfig.CENTER_LINE_X - Rh)%Q
      /\ Hammer.minY (GameScene.hammer1 ob) = Rh
      /\ Hammer.maxY (GameScene.hammer1 ob) = (GameConfig.GAME_HEIGHT - Rh)%Q
      /\ Hammer.minY (GameScene.hammer2 ob) = Rh
      /\ Hammer.maxY (GameScene.hammer2 ob) = (GameConfig.GAME_HEIGHT - Rh)%Q).
Proof.
  intros H. vm_compute in H. injection H as <-. vm_compute.
  repeat split.
Qed.

Lemma length_setPosition (h : nat) (p : Vector.t) (w : World) :
  length (bodies (Matter.setPosition h p w)) = length (bodies w).
Proof. apply length_updateBody. Qed.

Lemma update_places_strikers
    (s0 s : GameScene.t) (p1Input p2Input : Input.t) :
  GameScene.create = Some s0 ->
  GameScene.objects s = GameScene.objects s0 ->
  length (bodies (GameScene.world s)) = length (bodies (GameScene.world s0)) ->
  GameScene.gameOver s = false ->
  let R := GameConfig.STRIKER.RADIUS in
  (Input.active p1Input = true ->
   strikerPosition 1 (GameScene.update p1Input p2Input s)
   = Some (Vector.mk
             (Clamp (Input.x p1Input) (GameConfig.CENTER_LINE_X + R)
                    (GameConfig.GAME_WIDTH - R))
             (Clamp (Input.y p1Input) R (GameConfig.GAME_HEIGHT - R))))
  /\ (Input.active p2Input = true ->
      strikerPosition 2 (GameScene.update p1Input p2Input s)
      = Some (Vector.mk
                (Clamp (Input.x p2Input) R (GameConfig.CENTER_LINE_X - R))
                (Clamp (Input.y p2Input) R (GameConfig.GAME_HEIGHT - R)))).
Proof.
  intros Hc Ho Hlen Hgo R.
  destruct (create_players s0 Hc)
    as ((E1 & E2 & E3 & E4 & El)
        & (S1 & S2 & S3 & S4 & S5 & S6 & S7 & S8) & _).
  cbv zeta in *. rewrite <- Ho in *. rewrite El in Hlen.
  assert (Hob : GameScene.objects (GameScene.update p1Input p2Input s)
                = GameScene.objects s) by apply update_frame.
  unfold strikerPosition, Striker.getPosition. simpl Z.eqb. cbv iota.
  rewrite Hob, update_world, Hgo. cbv zeta.
  split; intros Ha.
  - rewrite Ha.
    rewrite !positionOf_Hammer_update_ne by congruence.
    assert (Hs1 : Matter.positionOf
                    (Striker.body (GameScene.striker1 (GameScene.objects s)))
                    (Striker.setPosition
                       (GameScene.striker1 (GameScene.objects s))
                       (Input.x p1Input) (Input.y p1Input) (GameScene.world s))
                  = Some (Striker.constrained
                            (GameScene.striker1 (GameScene.objects s))
                            (Input.x p1Input) (Input.y p1Input))).
    { unfold Striker.setPosition. apply positionOf_setPosition.
      rewrite E1, Hlen. lia. }
    destruct (Input.active p2Input).
    + unfold Striker.setPosition at 1.
      rewrite positionOf_setPosition_ne by congruence.
      rewrite Hs1. unfold Striker.constrained. now rewrite S1, S2, S5, S6.
    + rewrite Hs1. unfold Striker.constrained. now rewrite S1, S2, S5, S6.
  - rewrite Ha.
    rewrite !positionOf_Hammer_update_ne by congruence.
    unfold Striker.setPosition at 1. rewrite positionOf_setPosition.
    + unfold Striker.constrained. now rewrite S3, S4, S7, S8.
    + rewrite E3. destruct (Input.active p1Input);
        unfold Striker.setPosition; rewrite ?length_setPosition, Hlen; lia.
Qed.

(** X11 (GameScene.update, Striker.setPosition).  On a running game over
    the created objects, an active sample is an authoritative override:
    after [update] that player's striker is at the sample clamped into the
    player's band, wherever the striker was before and whatever the other
    sample and the hammers' corrections do. *)
Theorem active_sample_places_the_striker
    (s0 s : GameScene.t) (p1Input p2Input : Input.t) :
  GameScene.create = Some s0 ->
  GameScene.objects s = GameScene.objects s0 ->
  length (bodies (GameScene.world s)) = length (bodies (GameScene.world s0)) ->
  GameScene.gameOver s = false ->
  let R := GameConfig.STRIKER.RADIUS in
  (Input.active p1Input = true ->
   strikerPosition 1 (GameScene.update p1Input p2Input s)
   = Some (Vector.mk
             (Clamp (Input.x p1Input) (GameConfig.CENTER_LINE_X + R)
                    (GameConfig.GAME_WIDTH - R))
             (Clamp (Input.y p1Input) R (GameConfig.GAME_HEIGHT - R))))
  /\ (Input.active p2Input = true ->
      strikerPosition 2 (GameScene.update p1Input p2Input s)
      = Some (Vector.mk
                (Clamp (Input.x p2Input) R (GameConfig.CENTER_LINE_X - R))
                (Clamp (Input.y p2Input) R (GameConfig.GAME_HEIGHT - R)))).
Proof.
  exact (update_places_strikers s0 s p1Input p2Input).
Qed.

Lemma active_sample_places_the_striker_witness :
  exists s0, GameScene.create = Some s0
    /\ strikerPosition 1
         (GameScene.update (Input.mk 100 (-50) true) Input.none s0)
       = Some (Vector.mk (Clamp 100 (GameConfig.CENTER_LINE_X
                                     + GameConfig.STRIKER.RADIUS)
                               (GameConfig.GAME_WIDTH
                                - GameConfig.STRIKER.RADIUS))
                         (Clamp (-50) GameConfig.STRIKER.RADIUS
                               (GameConfig.GAME_HEIGHT
                                - GameConfig.STRIKER.RADIUS))).
Proof.
  eexists. split; [vm_compute; reflexivity|].
  match goal with
  | |- strikerPosition 1 (GameScene.update ?i1 ?i2 ?s0) = _ =>
      destruct (active_sample_places_the_striker s0 s0 i1 i2) as (H & _)
  end.
  - vm_compute. reflexivity.
  - reflexivity.
  - reflexivity.
  - reflexivity.
  - apply H. reflexivity.
Defined.



(** ** Chain and puck edge behaviour *)



Lemma updateBody_twice (h : nat) (f g : Body -> Body) (w : World) :
  Matter.updateBody h f (Matter.updateBody h g w)
  = Matter.updateBody h (fun b => f (g b)) w.
Proof.
  unfold Matter.updateBody at 2 3.
  destruct (bodies w !! h) as [b|] eqn:Hb.
  - unfold Matter.updateBody. simpl.
    rewrite list_lookup_insert_eq by (now apply lookup_lt_Some with b).
    now rewrite list_insert_insert_eq.
  - unfold Matter.updateBody. now rewrite Hb.
Qed.

(** X14 (Puck.reset).  Resetting twice is resetting once, and a reset
    touches nothing but the puck's position and velocities: every other
    body, every body's label, mass, flags and filter, and the constraints
    stay as they are. *)
Theorem Puck_reset_is_local_and_idempotent (p : Puck.t) (w : World) :
  Puck.reset p (Puck.reset p w) = Puck.reset p w
  /\ (forall h, h <> Puck.body p ->
      bodies (Puck.reset p w) !! h = bodies w !! h)
  /\ map bodyKind (bodies (Puck.reset p w)) = map bodyKind (bodies w)
  /\ constraints (Puck.reset p w) = constraints w.
Proof.
  assert (E : forall w, Puck.reset p w =
            Matter.updateBody (Puck.body p)
              (fun b => mkBody (label b) (shape b)
                          (Vector.mk (Puck.startX p) (Puck.startY p))
                          (Vector.mk 0 0) 0%Q (mass b) (isStatic b)
                          (isSensor b) (collisionFilter b)) w).
  { intros w1. unfold Puck.reset, Matter.setAngularVelocity,
      Matter.setVelocity, Matter.setPosition.
    now rewrite !updateBody_twice. }
  split; [|split; [|split]].
  - rewrite !E. now rewrite updateBody_twice.
  - intros h Hne. rewrite E. apply lookup_updateBody_ne. congruence.
  - apply kinds_Puck_reset.
  - rewrite E. unfold Matter.updateBody.
    now destruct (bodies w !! Puck.body p).
Qed.

Lemma Puck_reset_is_local_and_idempotent_witness :
  let p := fst (Puck.new 600 400 (GameScene.setupPhysics emptyWorld)) in
  let w := snd (Puck.new 600 400 (GameScene.setupPhysics emptyWorld)) in
  bodies (Puck.reset p w) !! 0%nat = bodies w !! 0%nat.
Proof.
  intros p w.
  apply (proj1 (proj2 (Puck_reset_is_local_and_idempotent p w))).
  vm_compute. discriminate.
Defined.

(** ** TouchInputManager *)

Lemma touchRun_halves (cam : Q -> Q -> Vector.t) (es : list TouchEvent)
    (m : TouchInputManager.t) :
  TouchInputManager.leftHalfEnd (touchRun cam es m)
  = TouchInputManager.leftHalfEnd m
  /\ TouchInputManager.rightHalfStart (touchRun cam es m)
     = TouchInputManager.rightHalfStart m.
Proof.
  unfold touchRun. revert m.
  induction es as [|e es IH]; intros m; [now split|].
  simpl. destruct (IH (touchHandle cam m e)) as [-> ->].
  destruct e as [p|p]; simpl.
  - unfold TouchInputManager.onPointerDown.
    repeat match goal with
      | |- context [if ?c then _ else _] => destruct c
      end; now split.
  - unfold TouchInputManager.onPointerUp.
    repeat match goal with
      | |- context [match ?c with Some _ => _ | None => _ end] =>
          destruct c
      | |- context [if ?c then _ else _] => destruct c
      end; now split.
Qed.

(** X15 (TouchInputManager.onPointerDown).  On a manager as the
    constructor makes it, after any pointer events, a pointer going down
    is bound to exactly one player, by the half its world point lies in:
    left of the centre line to player 2, on or right of it to player 1;
    the other player's binding is not touched. *)
Theorem pointer_down_binds_one_player_by_half
    (cam : Q -> Q -> Vector.t) (es : list TouchEvent) (p : Pointer.t) :
  let m := touchRun cam es TouchInputManager.new in
  let m' := TouchInputManager.onPointerDown cam p m in
  let wx := Vector.x (cam (Pointer.x p) (Pointer.y p)) in
  ((wx < GameConfig.CENTER_LINE_X)%Q ->
   TouchInputManager.activePointers m' !! "player2" = Some (Pointer.id p)
   /\ TouchInputManager.activePointers m' !! "player1"
      = TouchInputManager.activePointers m !! "player1")
  /\ ((GameConfig.CENTER_LINE_X <= wx)%Q ->
      TouchInputManager.activePointers m' !! "player1" = Some (Pointer.id p)
      /\ TouchInputManager.activePointers m' !! "player2"
         = TouchInputManager.activePointers m !! "player2").
Proof.
  intros m m' wx.
  destruct (touchRun_halves cam es TouchInputManager.new) as [HL HR].
  fold m in HL, HR.
  change (TouchInputManager.leftHalfEnd TouchInputManager.new)
    with GameConfig.CENTER_LINE_X in HL.
  change (TouchInputManager.rightHalfStart TouchInputManager.new)
    with GameConfig.CENTER_LINE_X in HR.
  subst m'. unfold TouchInputManager.onPointerDown. fold wx.
  rewrite HL, HR. split; intros Hx.
  - apply Qltb_lt in Hx. rewrite Hx. simpl. split.
    + apply lookup_insert_eq.
    + now apply lookup_insert_ne.
  - pose proof Hx as Hx'. apply Qltb_ge in Hx'. rewrite Hx'.
    apply Qle_bool_iff in Hx. rewrite Hx. simpl. split.
    + apply lookup_insert_eq.
    + now apply lookup_insert_ne.
Qed.

Lemma pointer_down_binds_one_player_by_half_witness :
  TouchInputManager.activePointers
    (TouchInputManager.onPointerDown Vector.mk (Pointer.mk 7 100 200 true)
       (touchRun Vector.mk [PointerDown (Pointer.mk 3 900 10 true)]
          TouchInputManager.new)) !! "player2" = Some 7.
Proof.
  destruct (pointer_down_binds_one_player_by_half Vector.mk
              [PointerDown (Pointer.mk 3 900 10 true)]
              (Pointer.mk 7 100 200 true)) as [H _].
  apply H. reflexivity.
Defined.

Lemma release_lookup (ap : gmap string Z) (k key : string) (id : Z) :
  match ap !! k with
  | Some pid => if pid =? id then delete k ap else ap
  | None => ap
  end !! key
  = if String.eqb key k
    then match ap !! k with
         | Some pid => if pid =? id then None else Some pid
         | None => None
         end
    else ap !! key.
Proof.
  destruct (String.eqb_spec key k) as [->|Hne].
  - destruct (ap !! k) as [pid|] eqn:E; [|exact E].
    destruct (pid =? id); [apply lookup_delete_eq|exact E].
  - destruct (ap !! k) as [pid|]; [|reflexivity].
    destruct (pid =? id); [|reflexivity].
    apply lookup_delete_ne. congruence.
Qed.

Lemma onPointerUp_map (p : Pointer.t) (m : TouchInputManager.t) :
  TouchInputManager.activePointers (TouchInputManager.onPointerUp p m)
  = let ap1 :=
      match TouchInputManager.activePointers m !! "player1" with
      | Some pid =>
          if pid =? Pointer.id p
          then delete "player1" (TouchInputManager.activePointers m)
          else TouchInputManager.activePointers m
      | None => TouchInputManager.activePointers m
      end in
    match ap1 !! "player2" with
    | Some pid => if pid =? Pointer.id p then delete "player2" ap1 else ap1
    | None => ap1
    end.
Proof.
  unfold TouchInputManager.onPointerUp. cbv zeta.
  destruct (TouchInputManager.activePointers m !! "player1") as [a|];
    [destruct (a =? Pointer.id p)|];
    cbn [TouchInputManager.activePointers];
    match goal with
    | |- context [?ap !! "player2"] =>
        destruct (ap !! "player2") as [b|];
        [destruct (b =? Pointer.id p)|]; reflexivity
    end.
Qed.

(** X16 (TouchInputManager.onPointerUp).  A pointer going up releases
    every player bound to its id and no other binding: afterwards neither
    player is bound to that id. *)
Theorem pointer_up_releases_its_bindings
    (p : Pointer.t) (m : TouchInputManager.t) (key : string) :
  key = "player1" \/ key = "player2" ->
  TouchInputManager.activePointers (TouchInputManager.onPointerUp p m) !! key
  = match TouchInputManager.activePointers m !! key with
    | Some pid => if pid =? Pointer.id p then None else Some pid
    | None => None
    end
  /\ TouchInputManager.activePointers (TouchInputManager.onPointerUp p m) !! key
     <> Some (Pointer.id p).
Proof.
  intros Hkey.
  assert (E : TouchInputManager.activePointers
                (TouchInputManager.onPointerUp p m) !! key
              = match TouchInputManager.activePointers m !! key with
                | Some pid => if pid =? Pointer.id p then None else Some pid
                | None => None
                end).
  { rewrite onPointerUp_map. cbv zeta. rewrite release_lookup.
    destruct Hkey as [-> | ->]; cbn [String.eqb Ascii.eqb Bool.eqb].
    - rewrite release_lookup. reflexivity.
    - rewrite release_lookup. reflexivity. }
  split; [exact E|]. rewrite E.
  destruct (TouchInputManager.activePointers m !! key) as [pid|];
    [|discriminate].
  destruct (Z.eqb_spec pid (Pointer.id p)); congruence.
Qed.

Lemma pointer_up_releases_its_bindings_witness :
  TouchInputManager.activePointers
    (TouchInputManager.onPointerUp (Pointer.mk 7 100 200 false)
       (TouchInputManager.onPointerDown Vector.mk (Pointer.mk 7 100 200 true)
          TouchInputManager.new)) !! "player2" <> Some 7.
Proof.
  apply (pointer_up_releases_its_bindings (Pointer.mk 7 100 200 false)).
  now right.
Defined.



Lemma onPointerDown_left (cam : Q -> Q -> Vector.t) (p : Pointer.t)
    (m : TouchInputManager.t) :
  (Vector.x (cam (Pointer.x p) (Pointer.y p))
   < TouchInputManager.leftHalfEnd m)%Q ->
  TouchInputManager.onPointerDown cam p m
  = TouchInputManager.mk
      (<["player2" := Pointer.id p]> (TouchInputManager.activePointers m))
      (TouchInputManager.leftHalfEnd m) (TouchInputManager.rightHalfStart m).
Proof.
  intros Hx. unfold TouchInputManager.onPointerDown.
  apply Qltb_lt in Hx. now rewrite Hx.
Qed.

(** X18 (TouchInputManager.onPointerDown, onPointerUp).  A second finger
    put down in the left half while a first one is still down there takes
    player 2 over: lifting the first finger then releases nothing, and
    lifting the second one leaves player 2 unbound although the first
    finger is still down. *)
Theorem second_touch_takes_the_player_over
    (cam : Q -> Q -> Vector.t) (p q : Pointer.t) (m : TouchInputManager.t) :
  (Vector.x (cam (Pointer.x p) (Pointer.y p))
   < TouchInputManager.leftHalfEnd m)%Q ->
  (Vector.x (cam (Pointer.x q) (Pointer.y q))
   < TouchInputManager.leftHalfEnd m)%Q ->
  Pointer.id p <> Pointer.id q ->
  let m2 := TouchInputManager.onPointerDown cam q
              (TouchInputManager.onPointerDown cam p m) in
  TouchInputManager.activePointers m2 !! "player2" = Some (Pointer.id q)
  /\ TouchInputManager.activePointers (TouchInputManager.onPointerUp p m2)
       !! "player2" = Some (Pointer.id q)
  /\ TouchInputManager.activePointers (TouchInputManager.onPointerUp q m2)
       !! "player2" = None.
Proof.
  intros Hp Hq Hne m2.
  assert (E2 : TouchInputManager.activePointers m2 !! "player2"
               = Some (Pointer.id q)).
  { subst m2. rewrite (onPointerDown_left cam p m Hp).
    rewrite onPointerDown_left by exact Hq.
    cbn [TouchInputManager.activePointers]. apply lookup_insert_eq. }
  split; [exact E2|].
  assert (Hup : forall r,
    TouchInputManager.activePointers (TouchInputManager.onPointerUp r m2)
      !! "player2"
    = if Pointer.id q =? Pointer.id r then None else Some (Pointer.id q)).
  { intros r. rewrite onPointerUp_map. cbv zeta.
    rewrite release_lookup. cbn [String.eqb Ascii.eqb Bool.eqb].
    rewrite release_lookup. cbn [String.eqb Ascii.eqb Bool.eqb].
    now rewrite E2. }
  rewrite !Hup. rewrite Z.eqb_refl.
  destruct (Z.eqb_spec (Pointer.id q) (Pointer.id p)); [congruence|].
  now split.
Qed.

Lemma second_touch_takes_the_player_over_witness :
  TouchInputManager.activePointers
    (TouchInputManager.onPointerUp (Pointer.mk 2 150 300 true)
       (TouchInputManager.onPointerDown Vector.mk (Pointer.mk 2 150 300 true)
          (TouchInputManager.onPointerDown Vector.mk
             (Pointer.mk 1 100 200 true) TouchInputManager.new)))
    !! "player2" = None.
Proof.
  apply (second_touch_takes_the_player_over Vector.mk
           (Pointer.mk 1 100 200 true) (Pointer.mk 2 150 300 true)
           TouchInputManager.new).
  - reflexivity.
  - reflexivity.
  - discriminate.
Defined.


